(** * Document segmentation of pdf2neo4j-italian-tax, embedded in Rocq

    The development models three modules of [src/pipeline]:
    - [section_extractor.py] ([SectionExtractor]),
    - [toc_extractor.py] ([TOCExtractor]),
    - [chunker.py] ([Chunker]),
    together with the dataclasses of [models.py] they build, the stages of
    [pipeline.py] that call them, and the parts of [pdf_parser.py] and
    [neo4j_ingester.py] that compute without the PDF or the database.

    Python [str] values are lists of characters.  A character is an 8-bit
    [ascii] value read as the code point of the same number (U+0000..U+00FF),
    so the model covers texts written in that range; the character classes of
    the regular expressions ([\s], [\d], [A-ZÀ-Ÿ], case folding) are written
    out for that range.  Python [int]s that count things (indices, lengths,
    levels, orders) are [nat]; those that come from outside or may become
    negative (page numbers, chunk size, overlap) are [Z]. *)

From Stdlib Require Import ZArith List Ascii String Lia Bool.
From Stdlib Require Import DecimalString DecimalNat.
From stdpp Require Import base gmap list.
Import ListNotations.

Local Open Scope nat_scope.

(** ** Python strings *)

Abbreviation str := (list ascii).

(** A literal of the source, as a list of characters. *)
Definition lit (s : string) : str := list_ascii_of_string s.

Definition code (c : ascii) : nat := nat_of_ascii c.

Definition in_range (lo hi : nat) (c : ascii) : bool :=
  (lo <=? code c) && (code c <=? hi).

(** [str.isspace] on one character, which is also the class [\s] of [re] on a
    [str] pattern: TAB..CR, FS..US, space, NEL and NBSP. *)
Definition is_space (c : ascii) : bool :=
  in_range 9 13 c || in_range 28 32 c || (code c =? 133) || (code c =? 160).

(** The class [\d]. *)
Definition is_digit (c : ascii) : bool := in_range 48 57 c.

(** The class [[.!?]]. *)
Definition is_terminator (c : ascii) : bool :=
  (code c =? 46) || (code c =? 33) || (code c =? 63).

(** The class [[A-ZÀ-Ÿ]]: the second range runs from U+00C0 to U+0178. *)
Definition is_upper_class (c : ascii) : bool :=
  in_range 65 90 c || in_range 192 255 c.

(** The same class under [re.IGNORECASE]. *)
Definition is_upper_class_ci (c : ascii) : bool :=
  is_upper_class c || in_range 97 122 c.

Definition is_dot (c : ascii) : bool := code c =? 46.
Definition is_newline (c : ascii) : bool := code c =? 10.

(** Lower-casing of an ASCII letter, enough to compare with the ASCII words
    of the patterns under [re.IGNORECASE]. *)
Definition ascii_lower (c : ascii) : ascii :=
  if in_range 65 90 c then ascii_of_nat (code c + 32) else c.

(** [str.upper].  The capital of U+00FF and of U+00B5 lies outside the 8-bit
    range: these two are kept as they are and stand for their capitals. *)
Definition upper_char (c : ascii) : str :=
  if in_range 97 122 c then [ascii_of_nat (code c - 32)]
  else if code c =? 223 then lit "SS"
  else if in_range 224 254 c && negb (code c =? 247)
       then [ascii_of_nat (code c - 32)]
  else [c].

Definition py_upper (s : str) : str := List.concat (List.map upper_char s).

Fixpoint drop_while (p : ascii -> bool) (s : str) : str :=
  match s with
  | [] => []
  | c :: s' => if p c then drop_while p s' else s
  end.

Fixpoint take_while (p : ascii -> bool) (s : str) : str :=
  match s with
  | [] => []
  | c :: s' => if p c then c :: take_while p s' else []
  end.

Definition lstrip (s : str) : str := drop_while is_space s.
Definition rstrip (s : str) : str := rev (drop_while is_space (rev s)).

(** [s.strip()] *)
Definition strip (s : str) : str := lstrip (rstrip s).

(** [s.split(sep)] for a one-character separator. *)
Fixpoint split_on (sep : ascii -> bool) (s : str) : list str :=
  match s with
  | [] => [[]]
  | c :: s' =>
      if sep c then [] :: split_on sep s'
      else match split_on sep s' with
           | piece :: pieces => (c :: piece) :: pieces
           | [] => [[c]]
           end
  end.

(** [sep.join(pieces)] *)
Fixpoint join (sep : str) (pieces : list str) : str :=
  match pieces with
  | [] => []
  | [p] => p
  | p :: ps => p ++ sep ++ join sep ps
  end.

(** [str(n)] for a non-negative [int]. *)
Definition str_of_nat (n : nat) : str :=
  list_ascii_of_string (NilEmpty.string_of_uint (Nat.to_uint n)).

(** [int(digits)] for a run of digits matched by [\d+]. *)
Definition int_of_digits (ds : str) : Z :=
  fold_left (fun acc c => (acc * 10 + Z.of_nat (code c - 48))%Z) ds 0%Z.

(** [s[:n]] for [n >= 0]. *)
Definition py_prefix (n : nat) (s : str) : str := firstn n s.

(** [s[start:]] with Python's reading of a negative [start]. *)
Definition py_slice_from (start : Z) (s : str) : str :=
  let n := Z.of_nat (length s) in
  if (start <? 0)%Z then skipn (Z.to_nat (Z.max 0 (n + start))) s
  else skipn (Z.to_nat start) s.

Fixpoint is_prefix_of (w s : str) : bool :=
  match w, s with
  | [], _ => true
  | a :: w', b :: s' => Ascii.eqb a b && is_prefix_of w' s'
  | _ :: _, [] => false
  end.

(** [a == b] *)
Fixpoint str_eqb (a b : str) : bool :=
  match a, b with
  | [], [] => true
  | x :: a', y :: b' => Ascii.eqb x y && str_eqb a' b'
  | _, _ => false
  end.

(** [w in s] *)
Fixpoint contains (w s : str) : bool :=
  is_prefix_of w s ||
  match s with
  | [] => false
  | _ :: s' => contains w s'
  end.

(** ** Anchored matching of the patterns

    Each of the patterns below is a sequence of items whose first characters
    are disjoint from what the item before it repeats, so a greedy
    left-to-right reading finds the match whenever backtracking would.  A
    matcher returns the text left after the match. *)

(** A literal word under [re.IGNORECASE]. *)
Fixpoint eat_word_ci (w s : str) : option str :=
  match w, s with
  | [], _ => Some s
  | a :: w', b :: s' =>
      if Ascii.eqb (ascii_lower a) (ascii_lower b) then eat_word_ci w' s' else None
  | _ :: _, [] => None
  end.

(** A literal word, case-sensitive. *)
Fixpoint eat_word (w s : str) : option str :=
  match w, s with
  | [], _ => Some s
  | a :: w', b :: s' => if Ascii.eqb a b then eat_word w' s' else None
  | _ :: _, [] => None
  end.

(** [c+] for a class [c]. *)
Definition eat_plus (p : ascii -> bool) (s : str) : option str :=
  match s with
  | c :: s' => if p c then Some (drop_while p s') else None
  | [] => None
  end.

(** One character of a class. *)
Definition eat_one (p : ascii -> bool) (s : str) : option str :=
  match s with
  | c :: s' => if p c then Some s' else None
  | [] => None
  end.

Definition and_then (m1 m2 : str -> option str) (s : str) : option str :=
  match m1 s with
  | Some rest => m2 rest
  | None => None
  end.

Infix ">>" := and_then (at level 61, left associativity).

Definition matches (m : str -> option str) (s : str) : bool :=
  match m s with Some _ => true | None => false end.

(** ** models.py *)

Record Document := {
  doc_documentId : str;
  doc_type : str;
  doc_pageCount : Z;
  doc_fullText : str
}.

Record TableOfContents := {
  tocId : str;
  toc_documentId : str;
  rawText : str;
  startPage : Z;
  endPage : Z;
  hasHeader : bool;
  headerText : option str;
  entryCount : nat;
  detectionMethod : option str
}.

Record Section := {
  sectionId : str;
  documentId : str;
  sectionNumber : str;
  title : str;
  content : str;
  sectionType : option str;
  level : nat;
  pageNumber : Z;
  order : nat;
  parentSectionId : option str
}.

Record Chunk := {
  chunkId : str;
  chunk_documentId : str;
  chunk_sectionId : str;
  chunk_content : str;
  chunkIndex : nat;
  chunk_pageNumber : Z;
  chunk_section_number : str;
  chunk_section_type : option str
}.

(** [c*] and [c?] for a class [c]. *)
Definition eat_star (p : ascii -> bool) (s : str) : option str :=
  Some (drop_while p s).

Definition eat_opt (p : ascii -> bool) (s : str) : option str :=
  match s with
  | c :: s' => if p c then Some s' else Some s
  | [] => Some s
  end.

(** [c{n,}] for a class [c]. *)
Definition eat_at_least (n : nat) (p : ascii -> bool) (s : str) : option str :=
  if n <=? length (take_while p s) then Some (drop_while p s) else None.

Definition is_colon (c : ascii) : bool := code c =? 58.

Definition is_upper_class_or_space (c : ascii) : bool :=
  is_upper_class c || is_space c.

Definition is_upper_class_ci_or_space (c : ascii) : bool :=
  is_upper_class_ci c || is_space c.

(** ** section_extractor.py *)

Module SectionExtractor.

(** [self.named_sections], matched with [re.IGNORECASE]. *)
Definition named_word (w : string) : str -> option str :=
  eat_word_ci (lit w) >> eat_star is_space >> eat_opt is_colon.

Definition named_sections : list (str -> option str) :=
  [ named_word "OGGETTO";
    named_word "QUESITO";
    eat_word_ci (lit "SOLUZIONE") >> eat_plus is_space
      >> eat_word_ci (lit "INTERPRETATIVA");
    eat_word_ci (lit "PARERE") >> eat_plus is_space >> eat_word_ci (lit "DELL");
    named_word "MOTIVAZIONE";
    named_word "CONCLUSIONE";
    named_word "INDICE";
    named_word "PREMESSA";
    named_word "RISPOSTA";
    named_word "ISTANZA";
    named_word "SOMMARIO" ].

(** [self.numbered_patterns] *)
Definition numbered_patterns : list (str -> option str) :=
  [ eat_plus is_digit >> eat_one is_dot >> eat_plus is_space
      >> eat_one is_upper_class;
    eat_plus is_digit >> eat_one is_dot >> eat_plus is_digit
      >> eat_plus is_space >> eat_one is_upper_class;
    eat_plus is_digit >> eat_one is_dot >> eat_plus is_digit
      >> eat_one is_dot >> eat_plus is_digit
      >> eat_plus is_space >> eat_one is_upper_class;
    eat_plus is_digit >> eat_plus is_space >> eat_one is_upper_class
      >> eat_at_least 10 is_upper_class_or_space ].

(** The group matched by the pattern of [_extract_level], a run of digits
    followed by any number of groups made of a dot and a run of digits.
    [numbering_tail] reads what follows the first digit. *)
Fixpoint numbering_tail (s : str) : str :=
  match s with
  | [] => []
  | c :: s' =>
      if is_digit c then c :: numbering_tail s'
      else if is_dot c then
        match s' with
        | d :: _ => if is_digit d then c :: numbering_tail s' else []
        | [] => []
        end
      else []
  end.

Definition leading_numbering (header : str) : option str :=
  match header with
  | c :: s' => if is_digit c then Some (c :: numbering_tail s') else None
  | [] => None
  end.

Definition _extract_level (header : str) : nat :=
  match leading_numbering header with
  | Some numbering => length (split_on is_dot numbering)
  | None => 1
  end.

Definition _is_section_header (line : str) : bool * option str * nat :=
  if existsb (fun m => matches m line) named_sections
  then (true, Some (lit "named"), 1)
  else if existsb (fun m => matches m line) numbered_patterns
  then (true, Some (lit "numbered"), _extract_level line)
  else (false, None, 0).

Definition _extract_section_number (header : str) : str :=
  match leading_numbering header with
  | Some numbering => numbering
  | None =>
      if existsb (fun m => matches m header) named_sections then
        match take_while is_upper_class_ci_or_space header with
        | [] => lit "UNKNOWN"
        | name => py_upper (strip name)
        end
      else lit "UNKNOWN"
  end.

Definition section_id (document_id : str) (order : nat) : str :=
  document_id ++ lit "_SEC_" ++ str_of_nat order.

Definition _create_section (document : Document) (order : nat) (header : str)
    (content_lines : list str) (section_type : option str)
    (page_number : Z) (level : nat) : Section :=
  {| sectionId := section_id (doc_documentId document) order;
     documentId := doc_documentId document;
     sectionNumber := _extract_section_number header;
     title := py_prefix 200 header;
     content := strip (join (lit "
") content_lines);
     sectionType := section_type;
     level := level;
     pageNumber := page_number;
     order := order;
     parentSectionId := None |}.

(** The local variables of [extract_sections] that live across the
    iterations of its loop. *)
Record scan_state := {
  sections : list Section;
  current_section_lines : list str;
  current_section_header : option str;
  current_section_type : option str;
  current_page : Z;
  section_counter : nat
}.

Definition initial_state : scan_state :=
  {| sections := [];
     current_section_lines := [];
     current_section_header := None;
     current_section_type := None;
     current_page := 1;
     section_counter := 0 |}.

(** Truth value of [current_section_header]: [None] and the empty string
    are false. *)
Definition header_open (h : option str) : option str :=
  match h with
  | Some (c :: s) => Some (c :: s)
  | _ => None
  end.

Definition lines_per_page : nat := 50.

(** The section that the guard
    [if current_section_header and current_section_lines] lets through. *)
Definition pending_section (document : Document) (st : scan_state)
    : option Section :=
  match header_open (current_section_header st), current_section_lines st with
  | Some header, _ :: _ =>
      Some (_create_section document (section_counter st) header
              (current_section_lines st) (current_section_type st)
              (current_page st) (_extract_level header))
  | _, _ => None
  end.

(** [current_page = (line_num // lines_per_page) + 1] *)
Definition with_page (st : scan_state) (page : Z) : scan_state :=
  {| sections := sections st;
     current_section_lines := current_section_lines st;
     current_section_header := current_section_header st;
     current_section_type := current_section_type st;
     current_page := page;
     section_counter := section_counter st |}.

(** [sections.append(section); section_counter += 1] *)
Definition save_section (st : scan_state) (section : Section) : scan_state :=
  {| sections := sections st ++ [section];
     current_section_lines := current_section_lines st;
     current_section_header := current_section_header st;
     current_section_type := current_section_type st;
     current_page := current_page st;
     section_counter := S (section_counter st) |}.

(** The assignments under [# Start new section]. *)
Definition start_section (st : scan_state) (header : str)
    (section_type : option str) : scan_state :=
  {| sections := sections st;
     current_section_lines := [];
     current_section_header := Some header;
     current_section_type := section_type;
     current_page := current_page st;
     section_counter := section_counter st |}.

(** [current_section_lines.append(line)] *)
Definition append_line (st : scan_state) (line : str) : scan_state :=
  {| sections := sections st;
     current_section_lines := current_section_lines st ++ [line];
     current_section_header := current_section_header st;
     current_section_type := current_section_type st;
     current_page := current_page st;
     section_counter := section_counter st |}.

(** One iteration of [for line_num, line in enumerate(lines)]. *)
Definition scan_line (document : Document) (st : scan_state)
    (line_num : nat) (line : str) : scan_state :=
  let line_stripped := strip line in
  let st := with_page st (Z.of_nat (line_num / lines_per_page + 1)) in
  match line_stripped with
  | [] => st
  | _ :: _ =>
      match _is_section_header line_stripped with
      | (true, section_type, _) =>
          let st :=
            match pending_section document st with
            | Some section => save_section st section
            | None => st
            end in
          start_section st line_stripped section_type
      | (false, _, _) =>
          match header_open (current_section_header st) with
          | Some _ => append_line st line
          | None => st
          end
      end
  end.

Fixpoint scan_lines (document : Document) (st : scan_state)
    (line_num : nat) (lines : list str) : scan_state :=
  match lines with
  | [] => st
  | line :: rest =>
      scan_lines document (scan_line document st line_num line) (S line_num) rest
  end.

(** The list [sections] as it stands before [if toc:], that is after the
    loop and the flush of the last section. *)
Definition raw_sections (document : Document) : list Section :=
  let lines := split_on is_newline (doc_fullText document) in
  let st := scan_lines document initial_state 0 lines in
  match pending_section document st with
  | Some section => sections st ++ [section]
  | None => sections st
  end.

Fixpoint _filter_toc_sections (sections : list Section)
    (toc : TableOfContents) : list Section :=
  match sections with
  | [] => []
  | section :: rest =>
      if ((startPage toc <=? pageNumber section)%Z
          && (pageNumber section <=? endPage toc)%Z)%bool
      then
        if length (content section) <? 100
        then _filter_toc_sections rest toc
        else section :: _filter_toc_sections rest toc
      else section :: _filter_toc_sections rest toc
  end.

Definition set_order (i : nat) (s : Section) : Section :=
  {| sectionId := sectionId s; documentId := documentId s;
     sectionNumber := sectionNumber s; title := title s;
     content := content s; sectionType := sectionType s;
     level := level s; pageNumber := pageNumber s;
     order := i; parentSectionId := parentSectionId s |}.

Definition set_parent (p : option str) (s : Section) : Section :=
  {| sectionId := sectionId s; documentId := documentId s;
     sectionNumber := sectionNumber s; title := title s;
     content := content s; sectionType := sectionType s;
     level := level s; pageNumber := pageNumber s;
     order := order s; parentSectionId := p |}.

(** [for i, section in enumerate(sections): section.order = i] *)
Fixpoint renumber (i : nat) (sections : list Section) : list Section :=
  match sections with
  | [] => []
  | section :: rest => set_order i section :: renumber (S i) rest
  end.

(** [# Find parent (section at level-1)] *)
Definition link_parent (parent_stack : gmap nat Section)
    (section : Section) : Section :=
  if 1 <? level section then
    match parent_stack !! (level section - 1) with
    | Some parent => set_parent (Some (sectionId parent)) section
    | None => section
    end
  else section.

(** [parent_stack[level] = section], then the removal of the deeper
    levels. *)
Definition update_stack (parent_stack : gmap nat Section)
    (section : Section) : gmap nat Section :=
  filter (fun kv : nat * Section => kv.1 <= level section)
         (<[level section := section]> parent_stack).

(** The loop of [_build_hierarchy]; [parent_stack] is the dict from level to
    the section last seen at that level. *)
Fixpoint hierarchy_loop (parent_stack : gmap nat Section)
    (sections : list Section) : list Section :=
  match sections with
  | [] => []
  | section :: rest =>
      let section := link_parent parent_stack section in
      section :: hierarchy_loop (update_stack parent_stack section) rest
  end.

Definition _build_hierarchy (sections : list Section) : list Section :=
  hierarchy_loop ∅ sections.

Definition extract_sections (document : Document)
    (toc : option TableOfContents) : list Section :=
  let sections := raw_sections document in
  let sections :=
    match toc with
    | Some toc => _filter_toc_sections sections toc
    | None => sections
    end in
  let sections := renumber 0 sections in
  _build_hierarchy sections.

End SectionExtractor.

(** ** toc_extractor.py *)

Module TOCExtractor.

Definition is_space_or_dot (c : ascii) : bool := is_space c || is_dot c.

(** The digits captured by a pattern that ends in a group of digits, when
    [prefix] matches at the start of [s] and a digit follows. *)
Definition digits_after (prefix : str -> option str) (s : str) : option str :=
  match prefix s with
  | Some rest =>
      match take_while is_digit rest with
      | [] => None
      | ds => Some ds
      end
  | None => None
  end.

(** [pattern.search(s)] for such a pattern: the group of the leftmost match. *)
Fixpoint search_digits (prefix : str -> option str) (s : str) : option str :=
  match digits_after prefix s with
  | Some ds => Some ds
  | None =>
      match s with
      | [] => None
      | _ :: s' => search_digits prefix s'
      end
  end.

(** [self.premessa_pattern]: the word, a run of blanks and dots, digits. *)
Definition premessa_pattern : str -> option str :=
  eat_word_ci (lit "PREMESSA") >> eat_plus is_space_or_dot.

(** [self.first_section_pattern]: the token 1.1, any run of non-digits,
    digits. *)
Definition first_section_pattern : str -> option str :=
  eat_word (lit "1.1") >> eat_star (fun c => negb (is_digit c)).

(** The end of [self.toc_header_pattern] under [re.MULTILINE]: blanks up to
    the end of a line. *)
Definition eol_after_spaces (s : str) : bool :=
  existsb is_newline (take_while is_space s)
  || match drop_while is_space s with [] => true | _ :: _ => false end.

(** [self.toc_header_pattern] at the start of a line; the result is the
    group, the word as it stands in the text.  Letters are compared without
    case over the code points below 256 that a [str] of this file holds;
    the letters beyond them that Python folds onto I, K and S are outside
    this model. *)
Definition toc_header_at (s : str) : option str :=
  let s := drop_while is_space s in
  let try (w : str) :=
    match eat_word_ci w s with
    | Some rest => if eol_after_spaces rest then Some (firstn (length w) s) else None
    | None => None
    end in
  match try (lit "INDICE") with
  | Some g => Some g
  | None => try (lit "SOMMARIO")
  end.

Fixpoint search_toc_header (at_line_start : bool) (s : str) : option str :=
  match (if at_line_start then toc_header_at s else None) with
  | Some g => Some g
  | None =>
      match s with
      | [] => None
      | c :: s' => search_toc_header (is_newline c) s'
      end
  end.

(** Length of a match of the entry pattern (blanks, digits, a dot) at the
    start of a line. *)
Definition entry_at (s : str) : option nat :=
  let ws := take_while is_space s in
  let rest := drop_while is_space s in
  match take_while is_digit rest with
  | [] => None
  | ds =>
      match drop_while is_digit rest with
      | c :: _ => if is_dot c then Some (length ws + length ds + 1) else None
      | [] => None
      end
  end.

(** [len(re.findall(entry pattern, s, re.MULTILINE))]: matches do not
    overlap; [skip] counts the characters still inside the last match. *)
Fixpoint count_entries (at_line_start : bool) (skip : nat) (s : str) : nat :=
  match (if at_line_start && (skip =? 0) then entry_at s else None) with
  | Some n =>
      1 + match s with
          | [] => 0
          | c :: s' => count_entries (is_newline c) (n - 1) s'
          end
  | None =>
      match s with
      | [] => 0
      | c :: s' => count_entries (is_newline c) (skip - 1) s'
      end
  end.

(** [doc[i].get_text("text")]: the opened PDF is the list of its page texts;
    as in PyMuPDF a negative index counts from the last page. *)
Definition page_text (doc : list str) (i : Z) : option str :=
  let n := Z.of_nat (length doc) in
  if (0 <=? i)%Z then nth_error doc (Z.to_nat i)
  else if (0 <=? n + i)%Z then nth_error doc (Z.to_nat (n + i))
  else None.

(** A candidate page read on page 2, kept when the page of that number
    passes [check].  The candidate is at least 0 and the document has at
    least two pages, so the page looked up always exists: the [None] of
    [page_text] is never reached from [extract_toc]. *)
Definition validated (doc : list str) (candidate : option str)
    (check : str -> bool) : option Z :=
  match candidate with
  | Some ds =>
      let page := int_of_digits ds in
      if (page <=? Z.of_nat (length doc))%Z then
        match page_text doc (page - 1) with
        | Some actual_text => if check actual_text then Some (page - 1)%Z else None
        | None => None
        end
      else None
  | None => None
  end.

(** [for page_num in range(1, toc_end_page)] *)
Fixpoint toc_raw_text (doc : list str) (page_num count : nat) : str :=
  match count with
  | O => []
  | S count' =>
      (if page_num <? length doc
       then match nth_error doc page_num with
            | Some t => t ++ lit "
"
            | None => []
            end
       else [])
      ++ toc_raw_text doc (S page_num) count'
  end.

Definition extract_toc (document : Document) (doc : list str)
    : option TableOfContents :=
  if negb (str_eqb (doc_type document) (lit "Circolare"))
  then None
  else if length doc <? 2 then None
  else
    match nth_error doc 1 with
    | None => None
    | Some page_2_text =>
        let header_match := search_toc_header true page_2_text in
        let has_header := match header_match with Some _ => true | None => false end in
        let header_text := option_map py_upper header_match in
        let method_1 :=
          validated doc (search_digits premessa_pattern page_2_text)
            (fun t => contains (lit "PREMESSA") (py_prefix 500 (py_upper t))) in
        let boundary :=
          match method_1 with
          | Some e => Some (e, lit "PREMESSA")
          | None =>
              match validated doc (search_digits first_section_pattern page_2_text)
                      (fun t => contains (lit "1.1") (py_prefix 200 t)) with
              | Some e => Some (e, lit "FIRST_SECTION")
              | None => None
              end
          end in
        match boundary with
        | None => None
        | Some (toc_end_page, detection_method) =>
            let raw := toc_raw_text doc 1 (Z.to_nat (toc_end_page - 1)) in
            Some {| tocId := doc_documentId document ++ lit "_TOC";
                    toc_documentId := doc_documentId document;
                    rawText := strip raw;
                    startPage := 2;
                    endPage := toc_end_page;
                    hasHeader := has_header;
                    headerText := header_text;
                    entryCount := count_entries true 0 raw;
                    detectionMethod := Some detection_method |}
        end
    end.

Definition is_toc_page (page_number : Z) (toc : option TableOfContents) : bool :=
  match toc with
  | None => false
  | Some toc => (startPage toc <=? page_number)%Z && (page_number <=? endPage toc)%Z
  end.

End TOCExtractor.

(** ** chunker.py *)

Module Chunker.

(** The fields [chunk_size] and [overlap] of a [Chunker], in tokens. *)
Record config := {
  chunk_size : Z;
  overlap : Z
}.

Definition chars_per_token : Z := 4.

Definition _create_chunk (section : Section) (chunk_index : nat)
    (content : str) (page_number : Z) : Chunk :=
  {| chunkId := sectionId section ++ lit "_CHK_" ++ str_of_nat chunk_index;
     chunk_documentId := documentId section;
     chunk_sectionId := sectionId section;
     chunk_content := content;
     chunkIndex := chunk_index;
     chunk_pageNumber := page_number;
     chunk_section_number := sectionNumber section;
     chunk_section_type := sectionType section |}.

(** A match of the separator pattern of [_split_into_sentences] at the start
    of [s]: a run of terminators followed by a run of blanks. *)
Definition separator_at (s : str) : option str :=
  match take_while is_terminator s with
  | [] => None
  | run =>
      match take_while is_space (drop_while is_terminator s) with
      | [] => None
      | ws => Some (run ++ ws)
      end
  end.

(** [re.split] with the separator in a group: pieces and separators
    alternate.  [piece] holds the current piece reversed; [skip] counts the
    characters still inside the separator just matched. *)
Fixpoint re_split (piece : str) (skip : nat) (s : str) : list str :=
  match s with
  | [] => [rev piece]
  | c :: s' =>
      match skip with
      | S k => re_split piece k s'
      | O =>
          match separator_at s with
          | Some sep => rev piece :: sep :: re_split [] (length sep - 1) s'
          | None => re_split (c :: piece) 0 s'
          end
      end
  end.

(** [for i in range(0, len(sentences) - 1, 2)] *)
Fixpoint recombine (sentences : list str) : list str :=
  match sentences with
  | a :: b :: rest =>
      match strip (a ++ b) with
      | [] => recombine rest
      | sentence => sentence :: recombine rest
      end
  | _ => []
  end.

Definition _split_into_sentences (text : str) : list str :=
  let sentences := re_split [] 0 text in
  let result := recombine sentences in
  let result :=
    if Nat.odd (length sentences) then
      match strip (List.last sentences []) with
      | [] => result
      | tail => result ++ [tail]
      end
    else result in
  match result with
  | [] => [text]
  | _ :: _ => result
  end.

(** What follows the leftmost match of a terminator and a run of blanks, the
    pattern of [_get_overlap_text]. *)
Fixpoint after_sentence_start (s : str) : option str :=
  match s with
  | [] => None
  | c :: s' =>
      if is_terminator c then
        match s' with
        | d :: _ =>
            if is_space d then Some (drop_while is_space s')
            else after_sentence_start s'
        | [] => None
        end
      else after_sentence_start s'
  end.

Definition _get_overlap_text (text : str) (overlap_chars : Z) : str :=
  if (Z.of_nat (length text) <=? overlap_chars)%Z then text
  else
    let overlap_text := py_slice_from (- overlap_chars) text in
    match after_sentence_start overlap_text with
    | Some rest => rest
    | None => overlap_text
    end.

Definition nonempty (s : str) : bool :=
  match s with [] => false | _ :: _ => true end.

(** The variables of the loop of [chunk_section]. *)
Record chunk_state := {
  chunks : list Chunk;
  current_chunk_text : str;
  chunk_index : nat
}.

(** One iteration of [for sentence in sentences]. *)
Definition chunk_step (self : config) (section : Section)
    (st : chunk_state) (sentence : str) : chunk_state :=
  let chunk_size_chars := (chunk_size self * chars_per_token)%Z in
  let overlap_chars := (overlap self * chars_per_token)%Z in
  let text := current_chunk_text st in
  if (chunk_size_chars <? Z.of_nat (length text) + Z.of_nat (length sentence))%Z
     && nonempty text
  then
    {| chunks := chunks st ++
         [_create_chunk section (chunk_index st) (strip text) (pageNumber section)];
       current_chunk_text :=
         _get_overlap_text text overlap_chars ++ lit " " ++ sentence;
       chunk_index := S (chunk_index st) |}
  else
    {| chunks := chunks st;
       current_chunk_text := text ++ lit " " ++ sentence;
       chunk_index := chunk_index st |}.

Definition chunk_loop (self : config) (section : Section)
    (st : chunk_state) (sentences : list str) : chunk_state :=
  fold_left (chunk_step self section) sentences st.

Definition chunk_section (self : config) (section : Section) : list Chunk :=
  if negb (nonempty (content section)) || (length (content section) <? 100)
  then [_create_chunk section 0 (content section) (pageNumber section)]
  else
    let sentences := _split_into_sentences (content section) in
    let st := chunk_loop self section
                {| chunks := []; current_chunk_text := []; chunk_index := 0 |}
                sentences in
    match strip (current_chunk_text st) with
    | [] => chunks st
    | last_text =>
        chunks st ++
        [_create_chunk section (chunk_index st) last_text (pageNumber section)]
    end.

End Chunker.

(** ** pipeline.py *)

Module Pipeline.

(** What [process_document] computes between the parsing of the PDF and the
    ingestion: the table of contents, the number of its pages, the sections
    and the chunks of all the sections. *)
Record stages := {
  toc : option TableOfContents;
  toc_pages : Z;
  doc_sections : list Section;
  all_chunks : list Chunk
}.

(** Stages 2 to 4 of [process_document]; [doc] is the opened PDF, the list
    of its page texts. *)
Definition process_document (chunker : Chunker.config) (document : Document)
    (doc : list str) : stages :=
  let toc := TOCExtractor.extract_toc document doc in
  let toc_pages :=
    match toc with
    | Some toc => (endPage toc - startPage toc + 1)%Z
    | None => 0%Z
    end in
  let sections := SectionExtractor.extract_sections document toc in
  let all_chunks := sections ≫= Chunker.chunk_section chunker in
  {| toc := toc; toc_pages := toc_pages;
     doc_sections := sections; all_chunks := all_chunks |}.

End Pipeline.

(** ** pdf_parser.py

    [_create_document_id] and [_extract_title] are modelled; [parse],
    [_extract_metadata] and [_extract_oggetto] read the PDF, the clock or
    patterns with lazy quantifiers and are left out. *)

Module PDFParser.

(** [str.lower] on one character. *)
Definition lower_char (c : ascii) : ascii :=
  if in_range 65 90 c || (in_range 192 222 c && negb (code c =? 215))
  then ascii_of_nat (code c + 32)
  else c.

Definition py_lower (s : str) : str := List.map lower_char s.

(** The class [\w] of [re] on a [str] pattern: letters, digits and other
    numeric characters, and the underscore. *)
Definition is_word (c : ascii) : bool :=
  in_range 48 57 c || in_range 65 90 c || in_range 97 122 c
  || (code c =? 95) || (code c =? 170) || (code c =? 178) || (code c =? 179)
  || (code c =? 181) || (code c =? 185) || (code c =? 186)
  || in_range 188 190 c
  || (in_range 192 255 c && negb (code c =? 215) && negb (code c =? 247)).

(** [str.isdigit]: not empty, and each character is a digit, superscript
    digits included. *)
Definition is_digit_char (c : ascii) : bool :=
  in_range 48 57 c || (code c =? 178) || (code c =? 179) || (code c =? 185).

Definition py_isdigit (s : str) : bool :=
  match s with
  | [] => false
  | _ :: _ => forallb is_digit_char s
  end.

(** [re.sub(r'\s+', ' ', s)]: each run of blanks becomes one space;
    [in_run] tells that the character before was a blank. *)
Fixpoint collapse_spaces (in_run : bool) (s : str) : str :=
  match s with
  | [] => []
  | c :: s' =>
      if is_space c then
        if in_run then collapse_spaces true s'
        else " "%char :: collapse_spaces true s'
      else c :: collapse_spaces false s'
  end.

(** [re.sub(r'[^\w]', '_', number)] *)
Definition clean_number (number : str) : str :=
  List.map (fun c => if is_word c then c else "_"%char) number.

(** [type_map.get(doc_type.lower(), doc_type[:3].upper())] *)
Definition doc_type_short (doc_type : str) : str :=
  let key := py_lower doc_type in
  if str_eqb key (lit "circolare") then lit "CIR"
  else if str_eqb key (lit "risoluzione") then lit "RIS"
  else if str_eqb key (lit "risposta") then lit "RIP"
  else py_upper (py_prefix 3 doc_type).

(** The year is a non-negative [int]: four digits read in the text, or the
    current year. *)
Definition _create_document_id (doc_type number : str) (year : nat) : str :=
  doc_type_short doc_type ++ lit "_" ++ clean_number number
    ++ lit "_" ++ str_of_nat year.

(** [for line in lines[:20]] *)
Fixpoint first_substantial_line (lines : list str) (filename : str) : str :=
  match lines with
  | [] => filename
  | line :: rest =>
      let line := strip line in
      if (10 <? length line) && negb (py_isdigit line)
      then py_prefix 200 (collapse_spaces false line)
      else first_substantial_line rest filename
  end.

Definition _extract_title (content filename : str) : str :=
  first_substantial_line (firstn 20 (split_on is_newline content)) filename.

End PDFParser.

(** ** neo4j_ingester.py

    Of the ingester only the computation of the [NEXT_SECTION] links is
    modelled: the parameters of the queries it runs, in order. *)

Module Neo4jIngester.

(** [sorted(sections, key=lambda s: s.order)], a stable sort: a section goes
    before the first section of the sorted rest whose order is not
    smaller. *)
Fixpoint insert_by_order (s : Section) (sorted : list Section) : list Section :=
  match sorted with
  | [] => [s]
  | t :: rest =>
      if order s <=? order t then s :: sorted
      else t :: insert_by_order s rest
  end.

Definition sorted_by_order (sections : list Section) : list Section :=
  foldr insert_by_order [] sections.

(** The parameters [currentId], [nextId] and [order] of one query. *)
Record next_section_link := {
  currentId : str;
  nextId : str;
  link_order : nat
}.

(** [for i in range(len(sorted_sections) - 1)] *)
Fixpoint link_consecutive (i : nat) (sorted : list Section)
    : list next_section_link :=
  match sorted with
  | current :: ((next_section :: _) as rest) =>
      {| currentId := sectionId current;
         nextId := sectionId next_section;
         link_order := i |}
      :: link_consecutive (S i) rest
  | _ => []
  end.

Definition _create_next_section_relationships (sections : list Section)
    : list next_section_link :=
  if length sections <? 2 then []
  else link_consecutive 0 (sorted_by_order sections).

End Neo4jIngester.

(** * Vocabulary of the properties, and sample data *)

Import SectionExtractor.
Import TOCExtractor.
Import Chunker.
Import PDFParser.
Import Neo4jIngester.

(** A string has ink when one of its characters is not a blank. *)
Definition has_ink (s : str) : bool := existsb (fun c => negb (is_space c)) s.

Definition starts_with_space (s : str) : bool :=
  match s with
  | c :: _ => is_space c
  | [] => false
  end.

Definition ends_with_space (s : str) : bool := starts_with_space (rev s).

(** Non-empty, and no blank at either end. *)
Definition is_trimmed_text (s : str) : Prop :=
  s <> [] /\ starts_with_space s = false /\ ends_with_space s = false.

(** A line that opens a section: not blank once stripped, and classified as
    a header by [_is_section_header]. *)
Definition is_heading_line (line : str) : bool :=
  match strip line with
  | [] => false
  | stripped => (_is_section_header stripped).1.1
  end.

(** A line that the scanner skips. *)
Definition is_blank_line (line : str) : bool :=
  match strip line with
  | [] => true
  | _ :: _ => false
  end.

(** What [_create_section] fixes for the section saved at position [i]. *)
Definition raw_ok (document : Document) (i : nat) (s : Section) : Prop :=
  sectionId s = section_id (doc_documentId document) i
  /\ order s = i
  /\ content s <> []
  /\ parentSectionId s = None.

Definition indexed_ok (document : Document) (l : list Section) : Prop :=
  forall i s, l !! i = Some s -> raw_ok document i s.

Record scan_inv (document : Document) (st : scan_state) : Prop := {
  inv_lines : Forall (fun l => has_ink l = true) (current_section_lines st);
  inv_counter : section_counter st = length (sections st);
  inv_sections : indexed_ok document (sections st)
}.

(** The two conditions under which [_filter_toc_sections] drops a section:
    its page lies in the range of the table of contents and its content is
    shorter than 100 characters. *)
Definition is_toc_entry (toc : TableOfContents) (s : Section) : Prop :=
  (startPage toc <= pageNumber s <= endPage toc)%Z /\ length (content s) < 100.

#[local] Instance is_toc_entry_dec toc s : Decision (is_toc_entry toc s) :=
  ltac:(unfold is_toc_entry; apply _).

(** The list handed to the renumbering: [sections] after [if toc:]. *)
Definition filtered_sections (document : Document)
    (toc : option TableOfContents) : list Section :=
  match toc with
  | Some toc => _filter_toc_sections (raw_sections document) toc
  | None => raw_sections document
  end.

(** Every level recorded in [parent_stack] holds a section of that level. *)
Definition stack_ok (m : gmap nat Section) : Prop :=
  forall k p, m !! k = Some p -> level p = k.

Definition newline : str := lit "
".

(** A document whose text is the given lines joined by newlines. *)
Definition doc_of_lines (lines : list string) : Document :=
  {| doc_documentId := lit "DOC";
     doc_type := lit "Circolare";
     doc_pageCount := 1;
     doc_fullText := join newline (lit <$> lines) |}.

Definition doc_two_headings : Document :=
  doc_of_lines ["PREMESSA"; "OGGETTO"; "testo"]%string.

Definition section_oggetto : Section :=
  {| sectionId := lit "DOC_SEC_0"; documentId := lit "DOC";
     sectionNumber := lit "OGGETTO"; title := lit "OGGETTO";
     content := lit "testo"; sectionType := Some (lit "named");
     level := 1; pageNumber := 1; order := 0; parentSectionId := None |}.

(** The scanner after the header line of [doc_two_headings]. *)
Definition state_after_premessa : scan_state :=
  scan_line doc_two_headings initial_state 0 (lit "PREMESSA").

Definition doc_two_sections : Document :=
  doc_of_lines ["PREMESSA"; "uno"; "OGGETTO"; "due"]%string.

(** The scanner after the first two lines of [doc_two_sections]. *)
Definition state_after_uno : scan_state :=
  scan_lines doc_two_sections initial_state 0 [lit "PREMESSA"; lit "uno"].

Definition section_premessa_uno : Section :=
  {| sectionId := lit "DOC_SEC_0"; documentId := lit "DOC";
     sectionNumber := lit "PREMESSA"; title := lit "PREMESSA";
     content := lit "uno"; sectionType := Some (lit "named");
     level := 1; pageNumber := 1; order := 0; parentSectionId := None |}.

Definition doc_blank_line : Document :=
  doc_of_lines ["PREMESSA"; "alfa"; ""; "beta"]%string.

Definition doc_nested : Document :=
  doc_of_lines ["1. TITOLO"; "corpo"; "1.1 Sotto"; "testo"]%string.

Definition section_nested : Section :=
  {| sectionId := lit "DOC_SEC_1"; documentId := lit "DOC";
     sectionNumber := lit "1.1"; title := lit "1.1 Sotto";
     content := lit "testo"; sectionType := Some (lit "numbered");
     level := 2; pageNumber := 1; order := 1;
     parentSectionId := Some (lit "DOC_SEC_0") |}.

Definition long_line : string :=
  "Con la presente circolare si forniscono chiarimenti in merito alla disciplina delle detrazioni fiscali.".

Definition doc_with_toc_entry : Document :=
  doc_of_lines ["SOMMARIO"; "voci"; "PREMESSA"; long_line]%string.

Definition toc_on_page_1 : TableOfContents :=
  {| tocId := lit "DOC_TOC"; toc_documentId := lit "DOC"; rawText := [];
     startPage := 1; endPage := 1; hasHeader := false; headerText := None;
     entryCount := 0; detectionMethod := Some (lit "PREMESSA") |}.

Definition section_after_toc_entry : Section :=
  {| sectionId := lit "DOC_SEC_1"; documentId := lit "DOC";
     sectionNumber := lit "PREMESSA"; title := lit "PREMESSA";
     content := lit long_line; sectionType := Some (lit "named");
     level := 1; pageNumber := 1; order := 0; parentSectionId := None |}.

(** [section] with another content. *)
Definition set_content (c : str) (s : Section) : Section :=
  {| sectionId := sectionId s; documentId := documentId s;
     sectionNumber := sectionNumber s; title := title s;
     content := c; sectionType := sectionType s;
     level := level s; pageNumber := pageNumber s;
     order := order s; parentSectionId := parentSectionId s |}.

(** Invariant of the loop of [chunk_section] over sentences that have ink. *)
Definition chunk_inv (st : chunk_state) : Prop :=
  Forall (fun c => is_trimmed_text (chunk_content c)) (chunks st)
  /\ (current_chunk_text st = [] \/ has_ink (current_chunk_text st) = true).

(** The last [n] characters of [s], all of it when it is shorter. *)
Definition last_chars (n : nat) (s : str) : str := skipn (length s - n) s.

(** The overlap fragment as the docstring of [_get_overlap_text] and the
    specification word it: the whole text when it is not longer than [n],
    otherwise its last [n] characters, cut after the first terminator
    followed by blanks when there is one. *)
Definition overlap_fragment (text : str) (n : nat) : str :=
  if length text <=? n then text
  else
    let slice := last_chars n text in
    match after_sentence_start slice with
    | Some rest => rest
    | None => slice
    end.

(** The buffers of [chunk_section]: the value of [current_chunk_text] at
    each flush inside the loop, then its value after the loop. *)
Fixpoint flushed_buffers (self : config) (text : str) (sentences : list str)
    : list str :=
  match sentences with
  | [] => [text]
  | sentence :: rest =>
      if ((chunk_size self * chars_per_token
           <? Z.of_nat (length text) + Z.of_nat (length sentence))%Z
          && nonempty text)%bool
      then text ::
           flushed_buffers self
             (_get_overlap_text text (overlap self * chars_per_token)
                ++ lit " " ++ sentence) rest
      else flushed_buffers self (text ++ lit " " ++ sentence) rest
  end.

Definition sample_section (c : str) : Section :=
  {| sectionId := lit "DOC_SEC_0"; documentId := lit "DOC";
     sectionNumber := lit "PREMESSA"; title := lit "PREMESSA";
     content := c; sectionType := Some (lit "named");
     level := 1; pageNumber := 1; order := 0; parentSectionId := None |}.

(** The default [Chunker]. *)
Definition default_chunker : config := {| chunk_size := 512; overlap := 50 |}.

(** A text of four sentences and 121 characters. *)
Definition four_sentences : str :=
  lit "Prima frase di prova numero uno. Seconda frase di prova numero due. Terza frase di prova numero tre. Quarta frase finale.".

(** A document of the type that carries a table of contents. *)
Definition circolare (pages : Z) : Document :=
  {| doc_documentId := lit "DOC"; doc_type := lit "Circolare";
     doc_pageCount := pages; doc_fullText := [] |}.

(** ** Vocabulary of the further properties *)

(** All the lines of the text of a document. *)
Definition lines_of (document : Document) : list str :=
  split_on is_newline (doc_fullText document).

(** [header] is a header line of [L], stripped, and [ty] is the type that
    [_is_section_header] gives it. *)
Definition header_from (L : list str) (header : str) (ty : option str) : Prop :=
  exists line,
    line ∈ L /\ is_heading_line line = true
    /\ header = strip line /\ ty = (_is_section_header header).1.2.

(** A line of [L] that goes to the buffer of an open section: it is
    neither blank nor a header line. *)
Definition body_line (L : list str) (l : str) : Prop :=
  l ∈ L /\ is_blank_line l = false /\ is_heading_line l = false.

(** [s] was built by [_create_section] from a header line of [L] and from
    buffered lines of [L]. *)
Definition made_from (document : Document) (L : list str) (s : Section) : Prop :=
  exists n header content_lines ty page,
    s = _create_section document n header content_lines ty page
          (_extract_level header)
    /\ header_from L header ty
    /\ content_lines <> []
    /\ Forall (body_line L) content_lines
    /\ (1 <= page)%Z.

Record origin_inv (document : Document) (L : list str) (st : scan_state)
    : Prop := {
  origin_sections : Forall (made_from document L) (sections st);
  origin_header : forall h, header_open (current_section_header st) = Some h ->
                  header_from L h (current_section_type st);
  origin_lines : Forall (body_line L) (current_section_lines st);
  origin_page : (1 <= current_page st)%Z
}.

(** The section that [_build_hierarchy] holds at level [k] when the sections
    [earlier] have been read, the most recent first: the most recent one of
    level [k], unless a section of a smaller level came after it. *)
Fixpoint nearest_at_level (earlier : list Section) (k : nat) : option Section :=
  match earlier with
  | [] => None
  | q :: rest =>
      if level q =? k then Some q
      else if level q <? k then None
      else nearest_at_level rest k
  end.

(** The estimated page of the line of index [line_num]. *)
Definition page_of_line (line_num : nat) : Z :=
  Z.of_nat (line_num / lines_per_page + 1).

Definition doc_no_heading : Document :=
  doc_of_lines ["solo testo"; "senza titoli"]%string.

(** A table of contents whose last page comes before its first page. *)
Definition toc_empty_range : TableOfContents :=
  {| tocId := lit "DOC_TOC"; toc_documentId := lit "DOC"; rawText := [];
     startPage := 2; endPage := 1; hasHeader := false; headerText := None;
     entryCount := 0; detectionMethod := Some (lit "PREMESSA") |}.

(** The characters of [s] that are not blanks, in order. *)
Definition ink_of (s : str) : str := List.filter (fun c => negb (is_space c)) s.

(** Invariant of the loop of [chunk_section] on the shape of the chunks. *)
Definition chunk_shape_inv (section : Section) (st : chunk_state) : Prop :=
  chunk_index st = length (chunks st)
  /\ forall i c, chunks st !! i = Some c ->
       exists text, c = _create_chunk section i text (pageNumber section).

(** A document whose first section is closed on the second page. *)
Definition doc_long_section : Document :=
  {| doc_documentId := lit "DOC"; doc_type := lit "Circolare";
     doc_pageCount := 2;
     doc_fullText :=
       join newline (lit "1. TITOLO" :: lit "corpo" :: replicate 60 []) |}.

(** Every blank of [s] is a plain space. *)
Definition only_plain_spaces (s : str) : Prop :=
  Forall (fun c => is_space c = true -> c = " "%char) s.

(** No two blanks of [s] stand side by side. *)
Fixpoint no_double_space (s : str) : bool :=
  match s with
  | c :: ((d :: _) as rest) =>
      negb (is_space c && is_space d) && no_double_space rest
  | _ => true
  end.

(** * Properties *)

(** ** Strings *)

Lemma has_ink_app (a b : str) : has_ink (a ++ b) = has_ink a || has_ink b.
Proof. unfold has_ink. apply existsb_app. Qed.

Lemma has_ink_rev (s : str) : has_ink (rev s) = has_ink s.
Proof.
  induction s as [|c s IH]; [done|].
  simpl. rewrite has_ink_app, IH. simpl. rewrite orb_false_r. apply orb_comm.
Qed.

Lemma has_ink_drop_while (s : str) : has_ink (drop_while is_space s) = has_ink s.
Proof.
  induction s as [|c s IH]; [done|].
  simpl. destruct (is_space c) eqn:E; simpl; [done | by rewrite E].
Qed.

Lemma drop_while_head (s : str) : starts_with_space (drop_while is_space s) = false.
Proof.
  induction s as [|c s IH]; [done|].
  simpl. by destruct (is_space c) eqn:E.
Qed.

Lemma drop_while_suffix (p : ascii -> bool) (s : str) :
  exists pre, s = pre ++ drop_while p s.
Proof.
  induction s as [|c s [pre IH]]; [by exists []|].
  simpl. destruct (p c); [|by exists []].
  exists (c :: pre). simpl. by f_equal.
Qed.

Lemma take_drop_while (p : ascii -> bool) (s : str) :
  take_while p s ++ drop_while p s = s.
Proof.
  induction s as [|c s IH]; [done|].
  simpl. destruct (p c); [|done]. simpl. by f_equal.
Qed.

Lemma has_ink_strip (s : str) : has_ink (strip s) = has_ink s.
Proof.
  unfold strip, lstrip, rstrip.
  by rewrite has_ink_drop_while, has_ink_rev, has_ink_drop_while, has_ink_rev.
Qed.

Lemma has_ink_nonempty (s : str) : has_ink s = true -> s <> [].
Proof. by destruct s. Qed.

Lemma no_ink_drop_while (s : str) : has_ink s = false -> drop_while is_space s = [].
Proof.
  induction s as [|c s IH]; [done|].
  simpl. destruct (is_space c); simpl; [auto | done].
Qed.

Lemma strip_nil_iff (s : str) : strip s = [] <-> has_ink s = false.
Proof.
  split.
  - intros H. rewrite <- has_ink_strip, H. done.
  - intros H. unfold strip, lstrip. apply no_ink_drop_while.
    unfold rstrip. by rewrite has_ink_rev, has_ink_drop_while, has_ink_rev.
Qed.

Lemma strip_nonempty_iff (s : str) : strip s <> [] <-> has_ink s = true.
Proof.
  rewrite strip_nil_iff. destruct (has_ink s); split; congruence.
Qed.

Lemma ends_with_space_suffix (pre s : str) :
  ends_with_space (pre ++ s) = false -> ends_with_space s = false.
Proof.
  unfold ends_with_space. rewrite rev_app_distr.
  destruct (rev s) eqn:E; [done|]. done.
Qed.

Lemma strip_starts (s : str) : starts_with_space (strip s) = false.
Proof. apply drop_while_head. Qed.

Lemma strip_ends (s : str) : ends_with_space (strip s) = false.
Proof.
  unfold strip, lstrip.
  destruct (drop_while_suffix is_space (rstrip s)) as [pre Hpre].
  apply (ends_with_space_suffix pre). rewrite <- Hpre.
  unfold ends_with_space, rstrip. rewrite rev_involutive. apply drop_while_head.
Qed.

(** What [strip] returns is trimmed as soon as it is not empty. *)
Lemma strip_trimmed (s : str) : has_ink s = true -> is_trimmed_text (strip s).
Proof.
  intros H. split; [by apply strip_nonempty_iff|].
  split; [apply strip_starts | apply strip_ends].
Qed.

Lemma has_ink_join (sep : str) (pieces : list str) :
  Exists (fun p => has_ink p = true) pieces -> has_ink (join sep pieces) = true.
Proof.
  induction pieces as [|p ps IH]; intros H; [by inversion H|].
  simpl. destruct ps as [|q ps].
  - inversion H as [? ? Hp|? ? Hps]; [done | inversion Hps].
  - rewrite !has_ink_app. inversion H as [? ? Hp|? ? Hps]; subst.
    + by rewrite Hp.
    + rewrite (IH Hps). by rewrite !orb_true_r.
Qed.

(** [str(n)] determines [n]. *)
Lemma str_of_nat_inj (n m : nat) : str_of_nat n = str_of_nat m -> n = m.
Proof.
  unfold str_of_nat. intros H.
  apply (f_equal string_of_list_ascii) in H.
  rewrite !string_of_list_ascii_of_string in H.
  apply (f_equal NilEmpty.uint_of_string) in H.
  rewrite !NilEmpty.usu in H.
  injection H as H.
  apply (f_equal Nat.of_uint) in H.
  by rewrite !DecimalNat.Unsigned.of_to in H.
Qed.

(** ** The line scanner of [extract_sections] *)

Lemma indexed_ok_snoc document l s :
  indexed_ok document l -> raw_ok document (length l) s ->
  indexed_ok document (l ++ [s]).
Proof.
  intros Hl Hs i x Hi.
  apply lookup_app_Some in Hi as [Hi|[Hge Hi]]; [by apply Hl|].
  apply list_lookup_singleton_Some in Hi as [Hi ->].
  by replace i with (length l) by lia.
Qed.

Lemma content_of_lines (lines : list str) :
  lines <> [] -> Forall (fun l => has_ink l = true) lines ->
  strip (join (lit "
") lines) <> [].
Proof.
  intros Hne Hall. apply strip_nonempty_iff, has_ink_join.
  destruct lines as [|l ls]; [done|].
  apply Exists_cons_hd. by inversion Hall.
Qed.

Lemma pending_section_ok document st s :
  scan_inv document st -> pending_section document st = Some s ->
  raw_ok document (length (sections st)) s.
Proof.
  intros [Hlines Hcount Hsecs]. unfold pending_section.
  destruct (header_open (current_section_header st)) as [header|]; [|done].
  destruct (current_section_lines st) as [|l ls] eqn:El; [done|].
  intros [= <-]. unfold raw_ok, _create_section.
  cbn [sectionId order content parentSectionId]. rewrite Hcount, <- El.
  repeat split. apply content_of_lines; by rewrite El.
Qed.

Lemma pending_section_with_page document st page s :
  scan_inv document st ->
  pending_section document (with_page st page) = Some s ->
  raw_ok document (length (sections st)) s.
Proof.
  intros Hinv. apply (pending_section_ok document (with_page st page)).
  destruct Hinv. by split.
Qed.

Lemma strip_cons_ink (line : str) c r : strip line = c :: r -> has_ink line = true.
Proof. intros H. apply strip_nonempty_iff. by rewrite H. Qed.

Lemma scan_line_inv document st n line :
  scan_inv document st -> scan_inv document (scan_line document st n line).
Proof.
  intros Hinv. unfold scan_line.
  set (page := Z.of_nat (n / lines_per_page + 1)).
  destruct (strip line) as [|c r] eqn:Es.
  { destruct Hinv. by split. }
  destruct (_is_section_header (c :: r)) as [[[] ty] lv].
  - destruct (pending_section document (with_page st page)) as [s|] eqn:Ep.
    + pose proof (pending_section_with_page _ _ _ _ Hinv Ep) as Hs.
      destruct Hinv as [Hlines Hcount Hsecs]. split; simpl.
      * constructor.
      * rewrite length_app. simpl. lia.
      * by apply indexed_ok_snoc.
    + destruct Hinv. split; simpl; [constructor | done | done].
  - destruct (header_open (current_section_header (with_page st page))).
    + destruct Hinv as [Hlines Hcount Hsecs]. split; simpl; [|done|done].
      apply Forall_app. split; [done|]. constructor; [|constructor].
      by apply (strip_cons_ink _ c r).
    + destruct Hinv. by split.
Qed.

Lemma scan_lines_inv document lines st n :
  scan_inv document st -> scan_inv document (scan_lines document st n lines).
Proof.
  revert st n. induction lines as [|l ls IH]; intros st n Hinv; [done|].
  simpl. apply IH. by apply scan_line_inv.
Qed.

Lemma initial_state_inv document : scan_inv document initial_state.
Proof. split; simpl; [constructor | done | intros i s Hi; done]. Qed.

(** The sections saved by the loop and the final flush carry the identifier
    and the order of their position, and have content. *)
Lemma raw_sections_ok document : indexed_ok document (raw_sections document).
Proof.
  unfold raw_sections.
  set (st := scan_lines _ _ _ _).
  assert (Hinv : scan_inv document st) by apply scan_lines_inv, initial_state_inv.
  destruct (pending_section document st) as [s|] eqn:Ep.
  - apply indexed_ok_snoc; [by destruct Hinv|]. by apply pending_section_ok.
  - by destruct Hinv.
Qed.

(** ** Filtering, renumbering and the hierarchy *)

Lemma filter_toc_sections_filter l toc :
  _filter_toc_sections l toc = filter (fun s => ~ is_toc_entry toc s) l.
Proof.
  induction l as [|s l IH]; [done|].
  simpl. rewrite filter_cons, IH.
  destruct (decide (~ is_toc_entry toc s)) as [Hd|Hd]; unfold is_toc_entry in Hd;
    destruct (Z.leb_spec (startPage toc) (pageNumber s));
    destruct (Z.leb_spec (pageNumber s) (endPage toc));
    destruct (Nat.ltb_spec (length (content s)) 100); simpl; try done;
    exfalso; apply Hd; lia.
Qed.

Lemma renumber_lookup l i j :
  renumber i l !! j = set_order (i + j) <$> l !! j.
Proof.
  revert i j. induction l as [|s l IH]; intros i j; [done|].
  destruct j as [|j]; simpl.
  - by rewrite Nat.add_0_r.
  - rewrite IH. by replace (S i + j) with (i + S j) by lia.
Qed.

Lemma renumber_order l i : order <$> renumber i l = seq i (length l).
Proof.
  revert i. induction l as [|s l IH]; intros i; [done|].
  simpl. f_equal. apply IH.
Qed.

Lemma renumber_field {A} (f : Section -> A) l :
  (forall i s, f (set_order i s) = f s) ->
  forall i, f <$> renumber i l = f <$> l.
Proof.
  intros Hf. induction l as [|s l IH]; intros i; [done|].
  simpl. rewrite Hf. f_equal. apply IH.
Qed.

Lemma link_parent_field {A} (f : Section -> A) m s :
  (forall p s, f (set_parent p s) = f s) -> f (link_parent m s) = f s.
Proof.
  intros Hf. unfold link_parent.
  destruct (1 <? level s); [|done]. by destruct (m !! (level s - 1)).
Qed.

(** [_build_hierarchy] only writes [parentSectionId]. *)
Lemma hierarchy_loop_field {A} (f : Section -> A) l :
  (forall p s, f (set_parent p s) = f s) ->
  forall m, f <$> hierarchy_loop m l = f <$> l.
Proof.
  intros Hf. induction l as [|s l IH]; intros m; [done|].
  simpl. rewrite IH. f_equal. by apply link_parent_field.
Qed.

Lemma extract_sections_unfold document toc :
  extract_sections document toc =
    _build_hierarchy (renumber 0 (filtered_sections document toc)).
Proof. by destruct toc. Qed.

Lemma extract_sections_field {A} (f : Section -> A) document toc :
  (forall p s, f (set_parent p s) = f s) ->
  (forall i s, f (set_order i s) = f s) ->
  f <$> extract_sections document toc = f <$> filtered_sections document toc.
Proof.
  intros Hp Ho. rewrite extract_sections_unfold. unfold _build_hierarchy.
  rewrite hierarchy_loop_field by done. by apply renumber_field.
Qed.

Lemma extract_sections_order document toc :
  order <$> extract_sections document toc =
    seq 0 (length (filtered_sections document toc)).
Proof.
  rewrite extract_sections_unfold. unfold _build_hierarchy.
  rewrite hierarchy_loop_field by done. apply renumber_order.
Qed.

Lemma extract_sections_length document toc :
  length (extract_sections document toc) = length (filtered_sections document toc).
Proof.
  rewrite <- (length_fmap order), extract_sections_order. apply length_seq.
Qed.

Lemma extract_sections_lookup_order document toc i s :
  extract_sections document toc !! i = Some s -> order s = i.
Proof.
  intros Hi.
  assert (H : (order <$> extract_sections document toc) !! i = Some (order s))
    by (by rewrite list_lookup_fmap, Hi).
  rewrite extract_sections_order in H. apply lookup_seq in H. lia.
Qed.

Lemma filtered_sections_elem document toc s :
  s ∈ filtered_sections document toc -> s ∈ raw_sections document.
Proof.
  destruct toc as [toc|]; simpl; [|done].
  rewrite filter_toc_sections_filter. intros H.
  by apply list_elem_of_filter in H as [_ H].
Qed.

Lemma section_id_inj d i j : section_id d i = section_id d j -> i = j.
Proof.
  unfold section_id. intros H.
  apply app_inv_head, app_inv_head in H. by apply str_of_nat_inj.
Qed.

Lemma raw_sections_id_inj document x y :
  x ∈ raw_sections document -> y ∈ raw_sections document ->
  sectionId x = sectionId y -> x = y.
Proof.
  intros [i Hi]%list_elem_of_lookup [j Hj]%list_elem_of_lookup Hid.
  destruct (raw_sections_ok document i x Hi) as [Hx _].
  destruct (raw_sections_ok document j y Hj) as [Hy _].
  rewrite Hx, Hy in Hid. apply section_id_inj in Hid. subst j. congruence.
Qed.

Lemma raw_sections_NoDup document : NoDup (raw_sections document).
Proof.
  apply NoDup_alt. intros i j x Hi Hj.
  destruct (raw_sections_ok document i x Hi) as [Hx _].
  destruct (raw_sections_ok document j x Hj) as [Hy _].
  rewrite Hx in Hy. by apply section_id_inj in Hy.
Qed.

Lemma filtered_sections_NoDup document toc :
  NoDup (filtered_sections document toc).
Proof.
  destruct toc as [toc|]; simpl; [|apply raw_sections_NoDup].
  rewrite filter_toc_sections_filter. apply NoDup_filter, raw_sections_NoDup.
Qed.

(** The identifiers of one output are pairwise distinct. *)
Lemma extract_sections_ids_NoDup document toc :
  NoDup (sectionId <$> extract_sections document toc).
Proof.
  rewrite extract_sections_field by done.
  apply NoDup_fmap_2_strong; [|apply filtered_sections_NoDup].
  intros x y Hx Hy. apply filtered_sections_elem in Hx, Hy.
  by apply (raw_sections_id_inj document).
Qed.

Lemma update_stack_lookup m s k p :
  update_stack m s !! k = Some p ->
  (k = level s /\ p = s) \/ m !! k = Some p.
Proof.
  unfold update_stack. intros [H _]%map_lookup_filter_Some.
  apply lookup_insert_Some in H as [[<- <-]|[_ H]]; auto.
Qed.

Lemma update_stack_ok m s : stack_ok m -> stack_ok (update_stack m s).
Proof.
  intros Hm k p [[-> ->]|H]%update_stack_lookup; [done | by apply Hm].
Qed.

Lemma link_parent_Some m s pid :
  parentSectionId s = None ->
  parentSectionId (link_parent m s) = Some pid ->
  1 < level s /\ exists p, m !! (level s - 1) = Some p /\ sectionId p = pid.
Proof.
  unfold link_parent. intros Hnone.
  destruct (Nat.ltb_spec 1 (level s)); [|congruence].
  destruct (m !! (level s - 1)) as [p|]; [|congruence].
  simpl. intros [= <-]. eauto.
Qed.

(** A parent written by the loop is the identifier of a section one level
    up, found in the stack the loop started with or earlier in its output. *)
Lemma hierarchy_loop_parent l : forall m i s pid,
  stack_ok m ->
  Forall (fun s => parentSectionId s = None) l ->
  hierarchy_loop m l !! i = Some s ->
  parentSectionId s = Some pid ->
  (exists k p, m !! k = Some p /\ sectionId p = pid /\ S (level p) = level s)
  \/ (exists j p, j < i /\ hierarchy_loop m l !! j = Some p
                  /\ sectionId p = pid /\ S (level p) = level s).
Proof.
  induction l as [|r l IH]; intros m i s pid Hm Hall Hi Hpid; [done|].
  apply Forall_cons in Hall as [Hr Hall]. simpl in Hi.
  destruct i as [|i].
  - injection Hi as <-.
    apply link_parent_Some in Hpid as (Hlt & p & Hp & Hid); [|done].
    left. exists (level r - 1), p. split; [done|]. split; [done|].
    rewrite (link_parent_field level) by done. rewrite (Hm _ _ Hp). lia.
  - simpl in Hi.
    destruct (IH _ _ _ _ (update_stack_ok _ _ Hm) Hall Hi Hpid)
      as [(k & p & Hk & Hid & Hlv)|(j & p & Hj & Hp & Hid & Hlv)].
    + apply update_stack_lookup in Hk as [[-> ->]|Hk].
      * right. exists 0, (link_parent m r). split; [lia|]. by split.
      * left. by exists k, p.
    + right. exists (S j), p. split; [lia|]. by split.
Qed.

Lemma filtered_sections_no_parent document toc :
  Forall (fun s => parentSectionId s = None) (filtered_sections document toc).
Proof.
  apply Forall_forall. intros s Hs%filtered_sections_elem.
  apply list_elem_of_lookup in Hs as [i Hi].
  by destruct (raw_sections_ok document i s Hi) as (_ & _ & _ & ?).
Qed.

Lemma renumber_no_parent l : forall i,
  Forall (fun s => parentSectionId s = None) l ->
  Forall (fun s => parentSectionId s = None) (renumber i l).
Proof.
  induction l as [|s l IH]; intros i H; [constructor|].
  apply Forall_cons in H as [Hs H]. simpl. constructor; [done | by apply IH].
Qed.

Lemma filter_lookup_index {A} (P : A -> Prop) `{!forall x, Decision (P x)}
    (l : list A) : forall j x,
  filter P l !! j = Some x ->
  exists i, l !! i = Some x /\ j = length (filter P (take i l)).
Proof.
  induction l as [|a l IH]; intros j x Hj; [done|].
  rewrite filter_cons in Hj. destruct (decide (P a)) as [Ha|Ha].
  - destruct j as [|j].
    + injection Hj as <-. by exists 0.
    + destruct (IH j x Hj) as (i & Hi & ->). exists (S i). split; [done|].
      simpl. by rewrite filter_cons_True.
  - destruct (IH j x Hj) as (i & Hi & ->). exists (S i). split; [done|].
    simpl. by rewrite filter_cons_False.
Qed.

(** A section of the filtered list stands in the raw list at an index that
    is at least its own, and strictly greater when an earlier raw section
    was dropped. *)
Lemma filtered_sections_index document toc j r :
  filtered_sections document toc !! j = Some r ->
  exists i, raw_sections document !! i = Some r /\ j <= i
    /\ ((exists k r', k < i /\ raw_sections document !! k = Some r'
                      /\ match toc with
                         | Some t => is_toc_entry t r'
                         | None => False
                         end) -> j < i).
Proof.
  destruct toc as [toc|]; simpl.
  - rewrite filter_toc_sections_filter. intros Hj.
    apply filter_lookup_index in Hj as (i & Hi & ->).
    exists i. split; [done|].
    assert (Hlen : length (take i (raw_sections document)) = i).
    { apply length_take_le. apply lookup_lt_Some in Hi. lia. }
    split.
    + etrans; [apply length_filter|]. lia.
    + intros (k & r' & Hk & Hr' & Hentry). rewrite <- Hlen at 2.
      apply (length_filter_lt _ _ r'); [|tauto].
      apply (list_elem_of_lookup_2 _ k). by rewrite lookup_take_lt.
  - intros Hj. exists j. split; [done|]. split; [done|].
    by intros (k & r' & _ & _ & []).
Qed.

(** The lines that follow a header line and are no header lines themselves
    only grow the buffer, by those of them that are not blank. *)
Lemma scan_lines_body document body : forall st n header,
  header_open (current_section_header st) = Some header ->
  Forall (fun l => is_heading_line l = false) body ->
  let st' := scan_lines document st n body in
  sections st' = sections st
  /\ current_section_header st' = current_section_header st
  /\ current_section_type st' = current_section_type st
  /\ section_counter st' = section_counter st
  /\ current_section_lines st' =
       current_section_lines st ++ filter (fun l => is_blank_line l = false) body.
Proof.
  induction body as [|l body IH]; intros st n header Hopen Hall.
  { simpl. by rewrite app_nil_r. }
  apply Forall_cons in Hall as [Hl Hall]. simpl.
  assert (Hstep : let st1 := scan_line document st n l in
            sections st1 = sections st
            /\ current_section_header st1 = current_section_header st
            /\ current_section_type st1 = current_section_type st
            /\ section_counter st1 = section_counter st
            /\ current_section_lines st1 =
                 current_section_lines st ++ filter (fun l => is_blank_line l = false) [l]).
  { unfold scan_line, is_heading_line in *.
    rewrite filter_cons, filter_nil. unfold is_blank_line.
    destruct (strip l) as [|c r] eqn:Es; simpl.
    { by rewrite app_nil_r. }
    destruct (_is_section_header (c :: r)) as [[[] ty] lv]; [done|].
    simpl. by rewrite Hopen. }
  destruct Hstep as (H1 & H2 & H3 & H4 & H5).
  destruct (IH (scan_line document st n l) (S n) header) as (K1 & K2 & K3 & K4 & K5);
    [by rewrite H2 | done |].
  rewrite K1, K2, K3, K4, K5, H1, H2, H3, H4, H5.
  repeat split. rewrite <- app_assoc. f_equal.
  by rewrite <- filter_app.
Qed.

Lemma scan_lines_app document a : forall b st n,
  scan_lines document st n (a ++ b) =
    scan_lines document (scan_lines document st n a) (n + length a) b.
Proof.
  induction a as [|l a IH]; intros b st n; simpl.
  - by rewrite Nat.add_0_r.
  - rewrite IH. by replace (S n + length a) with (n + S (length a)) by lia.
Qed.

Lemma scan_line_sections document st n line :
  exists more, sections (scan_line document st n line) = sections st ++ more.
Proof.
  unfold scan_line.
  destruct (strip line) as [|c r]; [by exists []; rewrite app_nil_r|].
  destruct (_is_section_header (c :: r)) as [[[] ty] lv].
  - destruct (pending_section _ _) as [s|]; simpl;
      [by exists [s] | by exists []; rewrite app_nil_r].
  - destruct (header_open _); simpl; by exists []; rewrite app_nil_r.
Qed.

(** Sections are only ever appended. *)
Lemma scan_lines_sections document lines : forall st n,
  exists more, sections (scan_lines document st n lines) = sections st ++ more.
Proof.
  induction lines as [|l lines IH]; intros st n; simpl.
  - by exists []; rewrite app_nil_r.
  - destruct (IH (scan_line document st n l) (S n)) as [more2 H2].
    destruct (scan_line_sections document st n l) as [more1 H1].
    exists (more1 ++ more2). by rewrite H2, H1, app_assoc.
Qed.

Lemma raw_sections_extends document s :
  s ∈ sections (scan_lines document initial_state 0
                  (split_on is_newline (doc_fullText document))) ->
  s ∈ raw_sections document.
Proof.
  intros Hs. unfold raw_sections.
  destruct (pending_section _ _); [|done].
  apply elem_of_app. by left.
Qed.

Lemma scan_line_heading document st n h :
  is_heading_line h = true ->
  let st' := scan_line document st n h in
  header_open (current_section_header st') = Some (strip h)
  /\ current_section_lines st' = [].
Proof.
  unfold is_heading_line, scan_line.
  destruct (strip h) as [|c r]; [done|].
  destruct (_is_section_header (c :: r)) as [[[] ty] lv]; [|done].
  intros _. by destruct (pending_section _ _).
Qed.

Lemma scan_line_heading_saves document st n h s :
  is_heading_line h = true ->
  pending_section document
    (with_page st (Z.of_nat (n / lines_per_page + 1))) = Some s ->
  sections (scan_line document st n h) = sections st ++ [s].
Proof.
  unfold is_heading_line, scan_line.
  destruct (strip h) as [|c r]; [done|].
  destruct (_is_section_header (c :: r)) as [[[] ty] lv]; [|done].
  intros _ ->. done.
Qed.

Lemma pending_section_open document st header l ls :
  header_open (current_section_header st) = Some header ->
  current_section_lines st = l :: ls ->
  exists s, pending_section document st = Some s
    /\ title s = py_prefix 200 header
    /\ content s = strip (join (lit "
") (l :: ls)).
Proof.
  intros Hh Hl. unfold pending_section. rewrite Hh, Hl. eauto.
Qed.

(** The section opened by a header line [h] and closed by the next header
    line or the end of the text, when a line that is not blank stands in
    between. *)
Lemma section_between_headings document pre h body rest :
  split_on is_newline (doc_fullText document) = pre ++ h :: body ++ rest ->
  is_heading_line h = true ->
  Forall (fun l => is_heading_line l = false) body ->
  match rest with [] => True | h' :: _ => is_heading_line h' = true end ->
  filter (fun l => is_blank_line l = false) body <> [] ->
  exists s, s ∈ raw_sections document
    /\ title s = py_prefix 200 (strip h)
    /\ content s =
         strip (join (lit "
") (filter (fun l => is_blank_line l = false) body)).
Proof.
  intros Hlines Hh Hbody Hrest Hkept.
  set (st1 := scan_lines document initial_state 0 pre).
  set (n := 0 + length pre).
  set (st2 := scan_line document st1 n h).
  set (st3 := scan_lines document st2 (S n) body).
  destruct (scan_line_heading document st1 n h Hh) as [Hopen2 Hnil2].
  fold st2 in Hopen2, Hnil2.
  destruct (scan_lines_body document body st2 (S n) (strip h) Hopen2 Hbody)
    as (_ & Hhd3 & _ & _ & Hl3).
  fold st3 in Hhd3, Hl3. rewrite Hnil2 in Hl3. simpl in Hl3.
  destruct (filter (fun l => is_blank_line l = false) body) as [|k ks] eqn:Ek;
    [done|].
  assert (Hfinal : scan_lines document initial_state 0
                     (split_on is_newline (doc_fullText document)) =
                   scan_lines document st3 (S n + length body) rest).
  { rewrite Hlines, scan_lines_app. fold st1 n. cbn [scan_lines]. fold st2.
    by rewrite scan_lines_app. }
  destruct rest as [|h' rest].
  - destruct (pending_section_open document st3 (strip h) k ks) as (s & Hp & Ht & Hc);
      [by rewrite Hhd3 | done |].
    exists s. split; [|done].
    unfold raw_sections. rewrite Hfinal. cbn [scan_lines].
    rewrite Hp. apply elem_of_app. right. constructor.
  - set (pg := Z.of_nat ((S n + length body) / lines_per_page + 1)).
    destruct (pending_section_open document (with_page st3 pg) (strip h) k ks)
      as (s & Hp & Ht & Hc); [by simpl; rewrite Hhd3 | done |].
    exists s. split; [|done].
    apply raw_sections_extends. rewrite Hfinal. cbn [scan_lines].
    destruct (scan_lines_sections document rest
                (scan_line document st3 (S n + length body) h')
                (S (S n + length body))) as [more ->].
    rewrite (scan_line_heading_saves _ _ _ _ s Hrest Hp).
    apply elem_of_app. left. apply elem_of_app. right. constructor.
Qed.

Lemma extract_sections_keeps document toc s :
  s ∈ filtered_sections document toc ->
  exists s', s' ∈ extract_sections document toc
    /\ title s' = title s /\ content s' = content s.
Proof.
  intros Hs.
  apply (list_elem_of_fmap_2 (fun s => (title s, content s))) in Hs.
  rewrite <- extract_sections_field in Hs by done.
  apply list_elem_of_fmap in Hs as (s' & [= Ht Hc] & Hs').
  by exists s'.
Qed.

(** ** Claims on [extract_sections] *)

(** C1, counterexample.  [PREMESSA] is open with no buffered line when the
    header line [OGGETTO] is read: no section is saved for it, and the only
    section of the output is the one opened by [OGGETTO]. *)
Lemma heading_without_lines_not_emitted :
  title <$> extract_sections doc_two_headings None = [lit "OGGETTO"]
  /\ content <$> extract_sections doc_two_headings None = [lit "testo"]
  /\ ~ (exists s, s ∈ extract_sections doc_two_headings None /\ content s = []).
Proof.
  split; [by vm_compute|]. split; [by vm_compute|].
  intros (s & Hs & Hc).
  apply (list_elem_of_fmap_2 content) in Hs. rewrite Hc in Hs.
  revert Hs. vm_compute. intros Hs.
  apply list_elem_of_In in Hs. destruct Hs as [Hs|[]]. discriminate Hs.
Qed.

(** C1, as amended.  A header line read while a section is open closes that
    section and opens a new one, with the stripped line as header and an
    empty buffer.  The closed section is saved, with the buffered lines and
    the page of the header line that closes it, when at least one line was
    buffered for it; with an empty buffer the list of sections and the
    counter are left as they were.  The flush at the end of the text obeys
    the same guard.  The sections so saved are the sections that
    [extract_sections] returns without a table of contents, and no section
    of an output of [extract_sections] has empty content. *)
Theorem open_section_saved_only_with_lines
    document toc st n line header s :
  (is_heading_line line = true ->
   header_open (current_section_header st) = Some header ->
   let st' := scan_line document st n line in
   header_open (current_section_header st') = Some (strip line)
   /\ current_section_lines st' = []
   /\ match current_section_lines st with
      | [] =>
          sections st' = sections st
          /\ section_counter st' = section_counter st
      | _ :: _ =>
          sections st' =
            sections st ++
            [_create_section document (section_counter st) header
               (current_section_lines st) (current_section_type st)
               (page_of_line n) (_extract_level header)]
          /\ section_counter st' = S (section_counter st)
      end)
  /\ (let st_end := scan_lines document initial_state 0 (lines_of document) in
      raw_sections document =
        sections st_end ++
        match header_open (current_section_header st_end),
              current_section_lines st_end with
        | Some last_header, _ :: _ =>
            [_create_section document (section_counter st_end) last_header
               (current_section_lines st_end) (current_section_type st_end)
               (current_page st_end) (_extract_level last_header)]
        | _, _ => []
        end)
  /\ (fun s => (title s, content s)) <$> extract_sections document None
     = (fun s => (title s, content s)) <$> raw_sections document
  /\ (s ∈ extract_sections document toc -> content s <> []).
Proof.
  split; [|split; [|split]].
  - unfold is_heading_line, scan_line. intros Hh Hopen.
    destruct (strip line) as [|c r]; [done|].
    destruct (_is_section_header (c :: r)) as [[[] ty] lv]; [|done].
    unfold pending_section.
    cbn [with_page current_section_header current_section_lines
         current_section_type current_page section_counter].
    rewrite Hopen.
    destruct (current_section_lines st) as [|l ls]; by cbn.
  - cbv zeta. unfold raw_sections, lines_of, pending_section.
    destruct (header_open _) as [last_header|]; [|by rewrite app_nil_r].
    destruct (current_section_lines _); [by rewrite app_nil_r | done].
  - by apply (extract_sections_field _ document None).
  - intros Hs. apply (list_elem_of_fmap_2 content) in Hs.
    rewrite extract_sections_field in Hs by done.
    apply list_elem_of_fmap in Hs as (r & -> & Hr).
    apply filtered_sections_elem, list_elem_of_lookup in Hr as [i Hi].
    by destruct (raw_sections_ok document i r Hi) as (_ & _ & ? & _).
Qed.

Lemma open_section_saved_only_with_lines_witness :
  (let st' := scan_line doc_two_headings state_after_premessa 1 (lit "OGGETTO") in
   header_open (current_section_header st') = Some (lit "OGGETTO")
   /\ current_section_lines st' = []
   /\ sections st' = [] /\ section_counter st' = 0)
  /\ (let st' := scan_line doc_two_sections state_after_uno 2 (lit "OGGETTO") in
      header_open (current_section_header st') = Some (lit "OGGETTO")
      /\ current_section_lines st' = []
      /\ sections st' = [section_premessa_uno] /\ section_counter st' = 1)
  /\ content section_premessa_uno <> [].
Proof.
  destruct (open_section_saved_only_with_lines doc_two_headings None
              state_after_premessa 1 (lit "OGGETTO") (lit "PREMESSA")
              section_oggetto) as (A & _).
  destruct (open_section_saved_only_with_lines doc_two_sections None
              state_after_uno 2 (lit "OGGETTO") (lit "PREMESSA")
              section_premessa_uno) as (B & _ & _ & D).
  split; [|split].
  - apply A; reflexivity.
  - apply B; reflexivity.
  - apply D. vm_compute. left.
Defined.

(** C4, counterexample.  The blank line between [alfa] and [beta] is not
    buffered: the content is the join of the two other lines, not of the
    three lines that stand between the header and the end of the text. *)
Lemma blank_line_not_buffered :
  content <$> extract_sections doc_blank_line None
    = [lit "alfa" ++ newline ++ lit "beta"]
  /\ content <$> extract_sections doc_blank_line None
    <> [strip (join newline [lit "alfa"; lit ""; lit "beta"])].
Proof. split; [by vm_compute|]. vm_compute. discriminate. Qed.

(** C4, as amended.  While a section is open, every line that is neither a
    header line nor blank (empty once stripped) is appended to the buffer,
    and blank lines are skipped.  So for a header line [h] followed by the
    lines [body], none of them a header line, up to the next header line or
    the end of the text, the section saved for [h] has as content the
    trimmed newline-join of the lines of [body] that are not blank, provided
    there is one; and [extract_sections] returns it with that content unless
    the filter on the table of contents drops it. *)
Theorem section_content_joins_nonblank_lines
    document pre h body rest
    (Hlines : split_on is_newline (doc_fullText document)
              = pre ++ h :: body ++ rest)
    (Hh : is_heading_line h = true)
    (Hbody : Forall (fun l => is_heading_line l = false) body)
    (Hrest : match rest with
             | [] => True
             | h' :: _ => is_heading_line h' = true
             end)
    (Hkept : filter (fun l => is_blank_line l = false) body <> []) :
  exists s,
    s ∈ raw_sections document
    /\ title s = py_prefix 200 (strip h)
    /\ content s =
         strip (join newline (filter (fun l => is_blank_line l = false) body))
    /\ forall toc,
         match toc with Some t => ~ is_toc_entry t s | None => True end ->
         exists s', s' ∈ extract_sections document toc
                    /\ title s' = title s /\ content s' = content s.
Proof.
  destruct (section_between_headings document pre h body rest)
    as (s & Hs & Ht & Hc); try done.
  exists s. split; [done|]. split; [done|]. split; [done|].
  intros toc Htoc. apply extract_sections_keeps.
  destruct toc as [t|]; simpl; [|done].
  rewrite filter_toc_sections_filter. by apply list_elem_of_filter.
Qed.

Lemma section_content_joins_nonblank_lines_witness :
  exists s,
    s ∈ raw_sections doc_blank_line
    /\ title s = py_prefix 200 (strip (lit "PREMESSA"))
    /\ content s =
         strip (join newline
                  (filter (fun l => is_blank_line l = false)
                     [lit "alfa"; lit ""; lit "beta"]))
    /\ forall toc,
         match toc with Some t => ~ is_toc_entry t s | None => True end ->
         exists s', s' ∈ extract_sections doc_blank_line toc
                    /\ title s' = title s /\ content s' = content s.
Proof.
  apply (section_content_joins_nonblank_lines doc_blank_line
           [] (lit "PREMESSA") [lit "alfa"; lit ""; lit "beta"] []).
  - reflexivity.
  - reflexivity.
  - repeat constructor.
  - exact I.
  - vm_compute. discriminate.
Defined.

(** C5.  With a table of contents, [_filter_toc_sections] drops a section if
    and only if its page lies in [[startPage, endPage]] and its content is
    shorter than 100 characters; the other sections are kept in their
    order, and this is the list that [extract_sections] renumbers. *)
Theorem toc_filter_drops_short_sections_in_range
    (secs : list Section) (toc : TableOfContents) :
  _filter_toc_sections secs toc = filter (fun s => ~ is_toc_entry toc s) secs
  /\ (forall s, s ∈ _filter_toc_sections secs toc
                <-> s ∈ secs /\ ~ is_toc_entry toc s)
  /\ _filter_toc_sections secs toc `sublist_of` secs
  /\ (forall document,
        extract_sections document (Some toc) =
          _build_hierarchy
            (renumber 0 (filter (fun s => ~ is_toc_entry toc s)
                           (raw_sections document)))).
Proof.
  split; [apply filter_toc_sections_filter|]. split; [|split].
  - intros s. rewrite filter_toc_sections_filter, list_elem_of_filter. tauto.
  - rewrite filter_toc_sections_filter. apply sublist_filter.
  - intros document. rewrite extract_sections_unfold. simpl.
    by rewrite filter_toc_sections_filter.
Qed.

(** C7.  The orders of the [N] sections returned by [extract_sections],
    with or without a table of contents, are [0, 1, ..., N-1] in list
    order. *)
Theorem extract_sections_orders_contiguous document toc :
  order <$> extract_sections document toc
    = seq 0 (length (extract_sections document toc)).
Proof. by rewrite extract_sections_length, extract_sections_order. Qed.

(** C6.  In the output of [extract_sections], a section with a parent
    identifier has exactly one section of the output with that identifier;
    it is one level up and has a smaller order. *)
Theorem parent_is_unique_one_level_up_and_earlier
    document toc s pid
    (Hs : s ∈ extract_sections document toc)
    (Hpid : parentSectionId s = Some pid) :
  exists p,
    p ∈ extract_sections document toc
    /\ sectionId p = pid
    /\ (forall q, q ∈ extract_sections document toc -> sectionId q = pid -> q = p)
    /\ level p = level s - 1
    /\ order p < order s.
Proof.
  apply list_elem_of_lookup in Hs as [i Hi].
  pose proof (extract_sections_lookup_order _ _ _ _ Hi) as Hoi.
  pose proof Hi as Hi'. rewrite extract_sections_unfold in Hi'.
  apply (hierarchy_loop_parent _ _ _ _ pid) in Hi' as
    [(k & p & Hk & _)|(j & p & Hj & Hp & Hid & Hlv)]; try done.
  - rewrite <- extract_sections_unfold in Hp.
    pose proof (extract_sections_lookup_order _ _ _ _ Hp) as Hoj.
    exists p. split; [by eapply list_elem_of_lookup_2|]. split; [done|].
    split; [|lia].
    intros q [jq Hq]%list_elem_of_lookup Hqid.
    assert (jq = j) as ->; [|congruence].
    pose proof (extract_sections_ids_NoDup document toc) as Hnd.
    apply (NoDup_lookup _ jq j pid Hnd);
      rewrite list_lookup_fmap; [by rewrite Hq; simpl; f_equal
                                | by rewrite Hp; simpl; f_equal].
  - apply renumber_no_parent, filtered_sections_no_parent.
Qed.

Lemma parent_is_unique_one_level_up_and_earlier_witness :
  exists p,
    p ∈ extract_sections doc_nested None
    /\ sectionId p = lit "DOC_SEC_0"
    /\ (forall q, q ∈ extract_sections doc_nested None ->
                  sectionId q = lit "DOC_SEC_0" -> q = p)
    /\ level p = level section_nested - 1
    /\ order p < order section_nested.
Proof.
  apply (parent_is_unique_one_level_up_and_earlier doc_nested None
           section_nested (lit "DOC_SEC_0")).
  - vm_compute. apply list_elem_of_In. right. left. reflexivity.
  - reflexivity.
Defined.

(** C10.  A section returned by [extract_sections] is one of the sections
    saved by the scan, and its identifier is the identifier of the document
    followed by [_SEC_] and by the index [i] it had in that sequence, before
    the filter; so the identifiers of one output are pairwise distinct.  Its
    final order is its position in the output, at most [i], and differs
    from [i] when the filter on the table of contents dropped a section
    saved before it. *)
Theorem section_id_is_emission_index document toc :
  NoDup (sectionId <$> extract_sections document toc)
  /\ forall j s,
       extract_sections document toc !! j = Some s ->
       exists i r,
         raw_sections document !! i = Some r
         /\ sectionId s = doc_documentId document ++ lit "_SEC_" ++ str_of_nat i
         /\ title s = title r /\ content s = content r
         /\ order s = j /\ j <= i
         /\ ((exists k r', k < i /\ raw_sections document !! k = Some r'
                           /\ match toc with
                              | Some t => is_toc_entry t r'
                              | None => False
                              end) -> order s <> i).
Proof.
  split; [apply extract_sections_ids_NoDup|].
  intros j s Hj.
  pose proof (extract_sections_lookup_order _ _ _ _ Hj) as Ho.
  assert (Hf : ((fun s => (sectionId s, title s, content s))
                  <$> extract_sections document toc) !! j
               = Some (sectionId s, title s, content s))
    by (by rewrite list_lookup_fmap, Hj).
  rewrite extract_sections_field in Hf by done.
  rewrite list_lookup_fmap in Hf.
  destruct (filtered_sections document toc !! j) as [r|] eqn:Er; [|done].
  injection Hf as Hid Ht Hc.
  destruct (filtered_sections_index _ _ _ _ Er) as (i & Hi & Hle & Hlt).
  destruct (raw_sections_ok document i r Hi) as (Hrid & _).
  exists i, r. split; [done|]. split; [by rewrite <- Hid, Hrid|].
  split; [done|]. split; [done|]. split; [done|]. split; [done|].
  intros Hdrop. specialize (Hlt Hdrop). lia.
Qed.

Lemma section_id_is_emission_index_witness :
  exists i r,
    raw_sections doc_with_toc_entry !! i = Some r
    /\ sectionId section_after_toc_entry
       = doc_documentId doc_with_toc_entry ++ lit "_SEC_" ++ str_of_nat i
    /\ title section_after_toc_entry = title r
    /\ content section_after_toc_entry = content r
    /\ order section_after_toc_entry = 0 /\ 0 <= i
    /\ ((exists k r', k < i /\ raw_sections doc_with_toc_entry !! k = Some r'
                      /\ is_toc_entry toc_on_page_1 r')
        -> order section_after_toc_entry <> i).
Proof.
  apply (proj2 (section_id_is_emission_index doc_with_toc_entry
                  (Some toc_on_page_1)) 0 section_after_toc_entry).
  reflexivity.
Defined.

(** The section kept after a dropped one bears the index 1 in its
    identifier and the order 0. *)
Example kept_section_id_and_order :
  (fun s => (sectionId s, order s))
    <$> extract_sections doc_with_toc_entry (Some toc_on_page_1)
  = [(lit "DOC_SEC_1", 0)].
Proof. by vm_compute. Qed.

(** ** The chunker *)

Lemma chunk_section_short self section :
  length (content section) < 100 ->
  chunk_section self section =
    [_create_chunk section 0 (content section) (pageNumber section)].
Proof.
  intros H. unfold chunk_section.
  destruct (Nat.ltb_spec (length (content section)) 100); [|lia].
  by rewrite orb_true_r.
Qed.

Lemma chunk_section_long self section :
  100 <= length (content section) ->
  chunk_section self section =
    let st := chunk_loop self section
                {| chunks := []; current_chunk_text := []; chunk_index := 0 |}
                (_split_into_sentences (content section)) in
    match strip (current_chunk_text st) with
    | [] => chunks st
    | last_text =>
        chunks st ++
        [_create_chunk section (chunk_index st) last_text (pageNumber section)]
    end.
Proof.
  intros H. unfold chunk_section.
  destruct (Nat.ltb_spec (length (content section)) 100); [lia|].
  destruct (content section); [simpl in H; lia | done].
Qed.

Lemma recombine_ink (l : list str) :
  Forall (fun s => has_ink s = true) (recombine l)
  /\ forall a, Forall (fun s => has_ink s = true) (recombine (a :: l)).
Proof.
  induction l as [|b l [IH1 IH2]]; [by split; [|intros a]; constructor|].
  split; [apply IH2|].
  intros a. simpl.
  destruct (strip (a ++ b)) as [|c r] eqn:E; [done|].
  constructor; [|done].
  rewrite <- E. rewrite has_ink_strip. apply strip_nonempty_iff. by rewrite E.
Qed.

(** The sentences are stripped and not empty, unless the text is returned
    whole as the only sentence. *)
Lemma split_into_sentences_cases (text : str) :
  _split_into_sentences text = [text]
  \/ Forall (fun s => has_ink s = true) (_split_into_sentences text).
Proof.
  unfold _split_into_sentences.
  set (sentences := re_split [] 0 text).
  assert (Hres : Forall (fun s => has_ink s = true)
            (if Nat.odd (length sentences)
             then match strip (List.last sentences []) with
                  | [] => recombine sentences
                  | c :: r => recombine sentences ++ [c :: r]
                  end
             else recombine sentences)).
  { destruct (Nat.odd (length sentences)); [|apply recombine_ink].
    destruct (strip (List.last sentences [])) as [|c r] eqn:E; [apply recombine_ink|].
    apply Forall_app. split; [apply recombine_ink|].
    constructor; [|constructor].
    rewrite <- E. rewrite has_ink_strip. apply strip_nonempty_iff. by rewrite E. }
  destruct (if Nat.odd (length sentences) then _ else _); [by left | by right].
Qed.

Lemma chunk_step_inv self section st sentence :
  has_ink sentence = true -> chunk_inv st ->
  chunk_inv (chunk_step self section st sentence).
Proof.
  intros Hs [Hchunks Htext]. unfold chunk_step.
  destruct (_ && _)%bool eqn:Hc; split; cbn [chunks current_chunk_text].
  - apply Forall_app. split; [done|]. constructor; [|constructor].
    cbn [chunk_content _create_chunk].
    apply strip_trimmed. apply andb_true_iff in Hc as [_ Hne].
    destruct Htext as [Ht|Ht]; [by rewrite Ht in Hne | done].
  - right. rewrite !has_ink_app, Hs. by rewrite !orb_true_r.
  - done.
  - right. rewrite !has_ink_app, Hs. by rewrite !orb_true_r.
Qed.

Lemma chunk_loop_inv self section sentences : forall st,
  Forall (fun s => has_ink s = true) sentences -> chunk_inv st ->
  chunk_inv (chunk_loop self section st sentences).
Proof.
  induction sentences as [|s l IH]; intros st Hall Hst; [done|].
  apply Forall_cons in Hall as [Hs Hall]. simpl.
  apply IH; [done|]. by apply chunk_step_inv.
Qed.

Lemma chunk_loop_chunks_trimmed self section text :
  Forall (fun c => is_trimmed_text (chunk_content c))
    (chunks (chunk_loop self section
               {| chunks := []; current_chunk_text := []; chunk_index := 0 |}
               (_split_into_sentences text))).
Proof.
  destruct (split_into_sentences_cases text) as [->|Hall].
  - unfold chunk_loop, chunk_step. cbn [fold_left current_chunk_text nonempty].
    rewrite andb_false_r. constructor.
  - apply chunk_loop_inv; [done|]. split; [constructor | by left].
Qed.

Lemma get_overlap_text_positive text (overlap_chars : Z) :
  (0 < overlap_chars)%Z ->
  _get_overlap_text text overlap_chars
    = overlap_fragment text (Z.to_nat overlap_chars).
Proof.
  intros Hpos. unfold _get_overlap_text, overlap_fragment.
  destruct (Z.leb_spec (Z.of_nat (length text)) overlap_chars);
    destruct (Nat.leb_spec (length text) (Z.to_nat overlap_chars)); try lia; [done|].
  unfold py_slice_from, last_chars.
  destruct (Z.ltb_spec (- overlap_chars) 0); [|lia].
  replace (Z.to_nat (Z.max 0 (Z.of_nat (length text) + - overlap_chars)))
    with (length text - Z.to_nat overlap_chars) by lia.
  done.
Qed.

(** With no overlap asked for, the slice [text[-0:]] is the whole text. *)
Lemma get_overlap_text_zero text :
  _get_overlap_text text 0 =
    match after_sentence_start text with
    | Some rest => rest
    | None => text
    end.
Proof.
  unfold _get_overlap_text.
  destruct (Z.leb_spec (Z.of_nat (length text)) 0).
  - destruct text; [done | simpl in *; lia].
  - done.
Qed.

Lemma flushed_buffers_head self sentences : forall text,
  exists tail buffers,
    flushed_buffers self text sentences = (text ++ tail) :: buffers.
Proof.
  induction sentences as [|s l IH]; intros text.
  - exists [], []. simpl. by rewrite app_nil_r.
  - cbn [flushed_buffers]. destruct (_ && _)%bool.
    + exists [], (flushed_buffers self
                    (_get_overlap_text text (overlap self * chars_per_token)
                       ++ lit " " ++ s) l).
      by rewrite app_nil_r.
    + destruct (IH (text ++ lit " " ++ s)) as (tail & buffers & ->).
      exists (lit " " ++ s ++ tail), buffers. by rewrite <- !app_assoc.
Qed.

(** Each buffer after the first starts with what [_get_overlap_text] returns
    on the buffer before it, followed by a space. *)
Lemma flushed_buffers_seeded self sentences : forall text k b b',
  flushed_buffers self text sentences !! k = Some b ->
  flushed_buffers self text sentences !! S k = Some b' ->
  exists tail,
    b' = _get_overlap_text b (overlap self * chars_per_token) ++ lit " " ++ tail.
Proof.
  induction sentences as [|s l IH]; intros text k b b' Hk Hk'; [done|].
  cbn [flushed_buffers] in Hk, Hk'. destruct (_ && _)%bool; [|by eapply IH].
  destruct k as [|k]; [|by eapply IH].
  injection Hk as <-. cbn [lookup list_lookup] in Hk'.
  destruct (flushed_buffers_head self l
              (_get_overlap_text text (overlap self * chars_per_token)
                 ++ lit " " ++ s)) as (tail & buffers & Hb).
  rewrite Hb in Hk'. injection Hk' as <-.
  exists (s ++ tail). by rewrite <- !app_assoc.
Qed.

(** The chunks saved by the loop hold the stripped buffers, but the last,
    which is left in [current_chunk_text]. *)
Lemma chunk_loop_buffers self section sentences : forall st,
  let st' := chunk_loop self section st sentences in
  let buffers := flushed_buffers self (current_chunk_text st) sentences in
  chunk_content <$> chunks st' =
    (chunk_content <$> chunks st) ++ (strip <$> removelast buffers)
  /\ List.last buffers [] = current_chunk_text st'.
Proof.
  induction sentences as [|s l IH]; intros st.
  - simpl. by rewrite app_nil_r.
  - cbn [chunk_loop fold_left flushed_buffers].
    destruct (IH (chunk_step self section st s)) as [H1 H2].
    unfold chunk_loop in H1, H2. unfold chunk_step in *.
    destruct (_ && _)%bool; cbn [chunks current_chunk_text] in *.
    + rewrite H1, fmap_app. cbn [fmap list_fmap chunk_content _create_chunk].
      destruct (flushed_buffers_head self l
                  (_get_overlap_text (current_chunk_text st)
                     (overlap self * chars_per_token) ++ lit " " ++ s))
        as (tail & buffers & Hb).
      rewrite Hb in *. split; [|done].
      rewrite <- app_assoc. done.
    + by split.
Qed.

(** The contents of the chunks of a section of 100 characters or more are
    the stripped buffers, the last one being left out when it is blank. *)
Lemma chunk_section_buffers self section :
  100 <= length (content section) ->
  let buffers :=
    flushed_buffers self [] (_split_into_sentences (content section)) in
  chunk_content <$> chunk_section self section =
    (strip <$> removelast buffers)
    ++ match strip (List.last buffers []) with
       | [] => []
       | last_text => [last_text]
       end.
Proof.
  intros Hlen. rewrite chunk_section_long by done. cbv zeta.
  destruct (chunk_loop_buffers self section
              (_split_into_sentences (content section))
              {| chunks := []; current_chunk_text := []; chunk_index := 0 |})
    as [H1 H2].
  cbn [chunks current_chunk_text] in H1, H2. rewrite H2.
  destruct (strip (current_chunk_text _)) as [|c r].
  - rewrite H1. simpl. by rewrite app_nil_r.
  - rewrite fmap_app, H1. done.
Qed.

(** ** Claims on [chunk_section] *)

(** C2, counterexample.  A section with empty content gives one chunk, and
    its content is empty. *)
Lemma empty_section_gives_empty_chunk :
  chunk_content <$> chunk_section default_chunker (sample_section []) = [[]]
  /\ ~ (forall c, c ∈ chunk_section default_chunker (sample_section []) ->
                  is_trimmed_text (chunk_content c)).
Proof.
  split; [reflexivity|]. intros H.
  destruct (H (_create_chunk (sample_section []) 0 [] 1)) as [Hne _].
  - vm_compute. constructor.
  - by apply Hne.
Qed.

(** C2, as amended.  For a section whose content has at least 100
    characters, or whose content is itself non-empty with no blank at either
    end, every chunk returned by [chunk_section] has a content that is
    non-empty and has no blank at either end.  (A shorter content is copied
    into its single chunk as it is.) *)
Theorem chunks_of_long_or_trimmed_section_are_trimmed
    self section c
    (Hc : c ∈ chunk_section self section)
    (Hsec : 100 <= length (content section)
            \/ is_trimmed_text (content section)) :
  is_trimmed_text (chunk_content c).
Proof.
  destruct (decide (length (content section) < 100)) as [Hshort|Hlong].
  - rewrite chunk_section_short in Hc by done.
    apply list_elem_of_singleton in Hc as ->. simpl.
    destruct Hsec as [Hsec|Hsec]; [lia | done].
  - rewrite chunk_section_long in Hc by lia. cbv zeta in Hc.
    pose proof (chunk_loop_chunks_trimmed self section (content section)) as Hall.
    rewrite Forall_forall in Hall.
    destruct (strip (current_chunk_text _)) as [|a r] eqn:E; [by apply Hall|].
    apply elem_of_app in Hc as [Hc|Hc]; [by apply Hall|].
    apply list_elem_of_singleton in Hc as ->. cbn [chunk_content _create_chunk].
    rewrite <- E. apply strip_trimmed, strip_nonempty_iff. by rewrite E.
Qed.

Lemma chunks_of_long_or_trimmed_section_are_trimmed_witness :
  is_trimmed_text
    (chunk_content
       (_create_chunk (sample_section (lit "breve")) 0 (lit "breve") 1)).
Proof.
  apply (chunks_of_long_or_trimmed_section_are_trimmed default_chunker
           (sample_section (lit "breve"))).
  - vm_compute. constructor.
  - right. repeat split. vm_compute. discriminate.
Defined.

(** C8.  A section whose content has fewer than 100 characters gives exactly
    one chunk, of index 0, whose content is the content of the section,
    whatever the chunk size and the overlap; chunking that content again,
    with any configuration, gives the same content. *)
Theorem short_section_gives_one_chunk
    self section (Hshort : length (content section) < 100) :
  chunk_section self section
    = [_create_chunk section 0 (content section) (pageNumber section)]
  /\ chunkIndex <$> chunk_section self section = [0]
  /\ chunk_content <$> chunk_section self section = [content section]
  /\ forall self' c,
       c ∈ chunk_section self section ->
       chunk_content <$> chunk_section self' (set_content (chunk_content c) section)
         = [chunk_content c].
Proof.
  rewrite chunk_section_short by done. repeat split.
  intros self' c Hc. apply list_elem_of_singleton in Hc as ->.
  by rewrite chunk_section_short.
Qed.

Lemma short_section_gives_one_chunk_witness :
  chunk_section {| chunk_size := 1; overlap := 0 |} (sample_section (lit "breve"))
    = [_create_chunk (sample_section (lit "breve")) 0 (lit "breve") 1]
  /\ chunkIndex <$> chunk_section {| chunk_size := 1; overlap := 0 |}
                      (sample_section (lit "breve")) = [0]
  /\ chunk_content <$> chunk_section {| chunk_size := 1; overlap := 0 |}
                         (sample_section (lit "breve")) = [lit "breve"]
  /\ forall self' c,
       c ∈ chunk_section {| chunk_size := 1; overlap := 0 |}
             (sample_section (lit "breve")) ->
       chunk_content <$> chunk_section self'
                           (set_content (chunk_content c)
                              (sample_section (lit "breve")))
         = [chunk_content c].
Proof.
  apply (short_section_gives_one_chunk {| chunk_size := 1; overlap := 0 |}
           (sample_section (lit "breve"))).
  vm_compute. lia.
Defined.

(** For a positive overlap, each buffer after the first is seeded as C9
    says: it starts with the last [overlap * 4] characters of the buffer
    before it (the whole of it when it is not longer), cut after the first
    terminator followed by blanks found in them, then a space. *)
Lemma positive_overlap_seeds_next_buffer self section k b b' :
  (0 < overlap self)%Z ->
  let buffers :=
    flushed_buffers self [] (_split_into_sentences (content section)) in
  buffers !! k = Some b -> buffers !! S k = Some b' ->
  exists tail,
    b' = overlap_fragment b (Z.to_nat (overlap self * chars_per_token))
           ++ lit " " ++ tail.
Proof.
  intros Hpos buffers Hk Hk'.
  destruct (flushed_buffers_seeded _ _ _ _ _ _ Hk Hk') as [tail ->].
  exists tail. rewrite get_overlap_text_positive; [done|].
  unfold chars_per_token. lia.
Qed.

(** C9, at an overlap of 0 tokens (less than the chunk size of 10).  The
    last 0 characters of a buffer are no characters, yet the fragment that
    seeds the next buffer is the whole buffer (cut after its first
    terminator followed by blanks, when it has one): the second chunk
    repeats the first one in full, and each later chunk repeats the last
    sentence of the chunk before it. *)
Theorem zero_overlap_repeats_previous_buffer :
  let self := {| chunk_size := 10; overlap := 0 |} in
  (overlap self < chunk_size self)%Z
  /\ chunk_content <$> chunk_section self (sample_section four_sentences)
     = [ lit "Prima frase di prova numero uno.";
         lit "Prima frase di prova numero uno. Seconda frase di prova numero due.";
         lit "Seconda frase di prova numero due. Terza frase di prova numero tre.";
         lit "Terza frase di prova numero tre. Quarta frase finale." ]
  /\ _get_overlap_text (lit " Prima frase di prova numero uno.")
       (overlap self * chars_per_token)
     = lit " Prima frase di prova numero uno."
  /\ last_chars (Z.to_nat (overlap self * chars_per_token))
       (lit " Prima frase di prova numero uno.") = [].
Proof. by vm_compute. Qed.

(** ** Claims on [extract_toc] *)

Lemma int_of_digits_nonneg (ds : str) : (0 <= int_of_digits ds)%Z.
Proof.
  unfold int_of_digits.
  assert (H : forall acc, (0 <= acc)%Z ->
            (0 <= fold_left (fun acc c => acc * 10 + Z.of_nat (code c - 48)) ds acc)%Z).
  { induction ds as [|c ds IH]; intros acc Hacc; [done|].
    simpl. apply IH. lia. }
  by apply H.
Qed.

Lemma validated_range doc candidate check e :
  validated doc candidate check = Some e ->
  (-1 <= e < Z.of_nat (length doc))%Z.
Proof.
  unfold validated. destruct candidate as [ds|]; [|done].
  pose proof (int_of_digits_nonneg ds).
  destruct (Z.leb_spec (int_of_digits ds) (Z.of_nat (length doc))); [|done].
  destruct (page_text _ _); [|done]. destruct (check _); [|done].
  intros [= <-]. lia.
Qed.

(** What [extract_toc] does guarantee: the first page is 2, and the last
    page is one less than a candidate that is at most the number of
    pages. *)
Lemma extract_toc_pages document doc toc :
  extract_toc document doc = Some toc ->
  startPage toc = 2%Z /\ (-1 <= endPage toc < Z.of_nat (length doc))%Z.
Proof.
  unfold extract_toc.
  destruct (negb _); [done|]. destruct (length doc <? 2); [done|].
  destruct (nth_error doc 1) as [page_2_text|]; [|done].
  destruct (validated doc (search_digits premessa_pattern page_2_text) _)
    as [e|] eqn:E1.
  - intros [= <-]. simpl. split; [done|]. by eapply validated_range.
  - destruct (validated doc (search_digits first_section_pattern page_2_text) _)
      as [e|] eqn:E2; [|done].
    intros [= <-]. simpl. split; [done|]. by eapply validated_range.
Qed.

(** C3, at candidate pages 2 and 0.  When page 2 reads [PREMESSA . 2], the
    candidate is page 2 itself, which holds the word: the table of contents
    returned runs from page 2 to page 1.  When it reads [PREMESSA . 0] and
    the last page holds the word, the last page is [-1]. *)
Theorem small_candidate_page_breaks_page_range :
  (startPage <$> extract_toc (circolare 2) [lit "copertina"; lit "PREMESSA . 2"]
     = Some 2%Z
   /\ endPage <$> extract_toc (circolare 2) [lit "copertina"; lit "PREMESSA . 2"]
     = Some 1%Z)
  /\ (startPage <$> extract_toc (circolare 3)
                      [lit "copertina"; lit "PREMESSA . 0"; lit "Premessa"]
     = Some 2%Z
   /\ endPage <$> extract_toc (circolare 3)
                    [lit "copertina"; lit "PREMESSA . 0"; lit "Premessa"]
     = Some (-1)%Z).
Proof. by vm_compute. Qed.

(** ** The examples of the specification *)

Example heading_level_and_number :
  _extract_level (lit "1.1 Condizioni di accesso") = 2
  /\ _extract_section_number (lit "1.1 Condizioni di accesso") = lit "1.1"
  /\ _extract_level (lit "PREMESSA") = 1
  /\ _extract_section_number (lit "PREMESSA") = lit "PREMESSA".
Proof. by vm_compute. Qed.

Example toc_boundary_of_twenty_pages :
  (fun t => (startPage t, endPage t, detectionMethod t))
    <$> extract_toc (circolare 20)
          ([lit "copertina"; lit "INDICE PREMESSA ........... 12"]
           ++ replicate 9 (lit "voci") ++ [lit "PREMESSA"]
           ++ replicate 8 (lit "testo"))
  = Some (2%Z, 11%Z, Some (lit "PREMESSA")).
Proof. by vm_compute. Qed.

Example toc_filter_on_page_3 :
  let toc := {| tocId := lit "DOC_TOC"; toc_documentId := lit "DOC";
                rawText := []; startPage := 2; endPage := 11;
                hasHeader := false; headerText := None; entryCount := 0;
                detectionMethod := Some (lit "PREMESSA") |} in
  let section (n : nat) :=
    {| sectionId := lit "DOC_SEC_0"; documentId := lit "DOC";
       sectionNumber := lit "1"; title := lit "1. TITOLO";
       content := replicate n "a"%char; sectionType := Some (lit "numbered");
       level := 1; pageNumber := 3; order := 0; parentSectionId := None |} in
  _filter_toc_sections [section 40] toc = []
  /\ _filter_toc_sections [section 150] toc = [section 150].
Proof. by vm_compute. Qed.

Example ninety_characters_single_chunk :
  length (chunk_section {| chunk_size := 5; overlap := 1 |}
            (sample_section (replicate 90 "a"%char))) = 1.
Proof. by vm_compute. Qed.

(** With an overlap of 5 tokens, each chunk after the first opens with the
    last 20 characters of the buffer before it. *)
Example positive_overlap_chunks :
  chunk_content <$> chunk_section {| chunk_size := 10; overlap := 5 |}
                      (sample_section four_sentences)
  = [ lit "Prima frase di prova numero uno.";
      lit "di prova numero uno. Seconda frase di prova numero due.";
      lit "di prova numero due. Terza frase di prova numero tre.";
      lit "di prova numero tre. Quarta frase finale." ].
Proof. by vm_compute. Qed.

(** * Further properties *)

(** ** Where the sections come from *)

Lemma pending_section_made document L st s :
  origin_inv document L st -> pending_section document st = Some s ->
  made_from document L s.
Proof.
  intros [Hsecs Hhd Hlines Hpage]. unfold pending_section.
  destruct (header_open (current_section_header st)) as [header|] eqn:Eh; [|done].
  destruct (current_section_lines st) as [|l ls] eqn:El; [done|].
  intros [= <-].
  exists (section_counter st), header, (l :: ls), (current_section_type st),
         (current_page st).
  split; [done|]. split; [by apply Hhd|]. done.
Qed.

Lemma scan_line_origin document L st n line :
  line ∈ L -> origin_inv document L st ->
  origin_inv document L (scan_line document st n line).
Proof.
  intros HL Hinv. unfold scan_line.
  set (page := Z.of_nat (n / lines_per_page + 1)).
  assert (Hpg : origin_inv document L (with_page st page)).
  { destruct Hinv. split; try done. simpl. unfold page. lia. }
  clear Hinv.
  destruct (strip line) as [|c r] eqn:Es; [done|].
  destruct (_is_section_header (c :: r)) as [[b ty] lv] eqn:Eh. destruct b.
  - assert (Hfrom : header_from L (c :: r) ty).
    { exists line. split; [done|]. unfold is_heading_line.
      rewrite Es, Eh. done. }
    destruct (pending_section document (with_page st page)) as [s|] eqn:Ep.
    + pose proof (pending_section_made _ _ _ _ Hpg Ep) as Hs.
      destruct Hpg as [Hsecs Hhd Hlines Hpage]. split; simpl.
      * apply Forall_app. split; [done|]. by constructor.
      * by intros h [= <-].
      * constructor.
      * done.
    + destruct Hpg as [Hsecs Hhd Hlines Hpage]. split; simpl; try done.
      by intros h [= <-].
  - destruct (header_open (current_section_header (with_page st page))) eqn:Eo;
      [|done].
    destruct Hpg as [Hsecs Hhd Hlines Hpage]. split; simpl; try done.
    apply Forall_app. split; [done|]. constructor; [|constructor].
    split; [done|]. unfold is_blank_line, is_heading_line. by rewrite Es, Eh.
Qed.

Lemma scan_lines_origin document L lines : forall st n,
  (forall l, l ∈ lines -> l ∈ L) -> origin_inv document L st ->
  origin_inv document L (scan_lines document st n lines).
Proof.
  induction lines as [|l ls IH]; intros st n HL Hinv; [done|].
  simpl. apply IH.
  - intros x Hx. apply HL. by right.
  - apply scan_line_origin; [|done]. apply HL. by left.
Qed.

Lemma raw_sections_made document :
  Forall (made_from document (lines_of document)) (raw_sections document).
Proof.
  unfold raw_sections.
  set (st := scan_lines _ _ _ _).
  assert (Hinv : origin_inv document (lines_of document) st).
  { apply scan_lines_origin; [done|].
    split; simpl; [constructor | done | constructor | done]. }
  destruct (pending_section document st) as [s|] eqn:Ep; [|by destruct Hinv].
  apply Forall_app. split; [by destruct Hinv|].
  constructor; [|constructor]. by eapply pending_section_made.
Qed.

Lemma hierarchy_loop_lookup l : forall m i s,
  hierarchy_loop m l !! i = Some s ->
  exists r, l !! i = Some r /\ s = set_parent (parentSectionId s) r.
Proof.
  induction l as [|r l IH]; intros m i s Hi; [done|].
  destruct i as [|i]; simpl in Hi; [|by eapply IH].
  injection Hi as <-. exists r. split; [done|].
  unfold link_parent. destruct (1 <? level r); [|by destruct r].
  destruct (m !! (level r - 1)); by destruct r.
Qed.

(** A section of the output is a section saved by the scan, with its order
    and its parent rewritten. *)
Lemma extract_sections_lookup_raw document toc i s :
  extract_sections document toc !! i = Some s ->
  exists r, filtered_sections document toc !! i = Some r
    /\ r ∈ raw_sections document
    /\ s = set_parent (parentSectionId s) (set_order i r).
Proof.
  rewrite extract_sections_unfold. unfold _build_hierarchy. intros Hi.
  apply hierarchy_loop_lookup in Hi as (r' & Hr' & Hs).
  rewrite renumber_lookup in Hr'.
  destruct (filtered_sections document toc !! i) as [r|] eqn:Er; [|done].
  injection Hr' as <-. exists r. split; [done|]. split; [|done].
  apply (filtered_sections_elem _ toc). by eapply list_elem_of_lookup_2.
Qed.

Lemma extract_sections_made document toc s :
  s ∈ extract_sections document toc ->
  exists r, made_from document (lines_of document) r
    /\ s = set_parent (parentSectionId s) (set_order (order s) r).
Proof.
  intros [i Hi]%list_elem_of_lookup.
  pose proof (extract_sections_lookup_order _ _ _ _ Hi) as Ho.
  apply extract_sections_lookup_raw in Hi as (r & _ & Hr & Hs).
  exists r. split; [|by rewrite Ho].
  pose proof (raw_sections_made document) as Hall.
  rewrite Forall_forall in Hall. by apply Hall.
Qed.

(** ** Levels and types of the headers *)

Lemma space_not_digit c : is_space c = true -> is_digit c = false.
Proof.
  unfold is_space, is_digit, in_range.
  rewrite !orb_true_iff, !andb_true_iff, andb_false_iff,
          !Nat.leb_le, !Nat.eqb_eq, !Nat.leb_gt. lia.
Qed.

Lemma space_not_dot c : is_space c = true -> is_dot c = false.
Proof.
  unfold is_space, is_dot, in_range.
  rewrite !orb_true_iff, !andb_true_iff, !Nat.leb_le, !Nat.eqb_eq, Nat.eqb_neq.
  lia.
Qed.

Lemma digit_not_dot c : is_digit c = true -> is_dot c = false.
Proof.
  unfold is_digit, is_dot, in_range.
  rewrite andb_true_iff, !Nat.leb_le, Nat.eqb_neq. lia.
Qed.

Lemma dot_not_digit c : is_dot c = true -> is_digit c = false.
Proof.
  unfold is_digit, is_dot, in_range.
  rewrite andb_false_iff, !Nat.leb_gt, Nat.eqb_eq. lia.
Qed.

Lemma take_while_Forall (p : ascii -> bool) (s : str) :
  Forall (fun c => p c = true) (take_while p s).
Proof.
  induction s as [|c s IH]; [constructor|].
  simpl. destruct (p c) eqn:E; [by constructor | constructor].
Qed.

Lemma eat_plus_shape (p : ascii -> bool) (s rest : str) :
  eat_plus p s = Some rest ->
  exists c cs, s = c :: cs ++ rest /\ p c = true
               /\ Forall (fun c => p c = true) cs.
Proof.
  unfold eat_plus. destruct s as [|c s]; [done|].
  destruct (p c) eqn:E; [|done]. intros [= <-].
  exists c, (take_while p s). split; [by rewrite take_drop_while|].
  split; [done | apply take_while_Forall].
Qed.

Lemma eat_one_shape (p : ascii -> bool) (s rest : str) :
  eat_one p s = Some rest -> exists c, s = c :: rest /\ p c = true.
Proof.
  unfold eat_one. destruct s as [|c s]; [done|].
  destruct (p c) eqn:E; [|done]. intros [= <-]. by exists c.
Qed.

Lemma numbering_tail_digits (ds r : str) :
  Forall (fun c => is_digit c = true) ds ->
  numbering_tail (ds ++ r) = ds ++ numbering_tail r.
Proof.
  induction 1 as [|d ds Hd _ IH]; [done|].
  simpl. by rewrite Hd, IH.
Qed.

Lemma numbering_tail_dot_digit (c d : ascii) (r : str) :
  is_dot c = true -> is_digit d = true ->
  numbering_tail (c :: d :: r) = c :: numbering_tail (d :: r).
Proof.
  intros Hc Hd. cbn [numbering_tail].
  by rewrite (dot_not_digit c Hc), Hc, Hd.
Qed.

Lemma numbering_tail_space (w : ascii) (r : str) :
  is_space w = true -> numbering_tail (w :: r) = [].
Proof.
  intros Hw. simpl. by rewrite (space_not_digit w Hw), (space_not_dot w Hw).
Qed.

Lemma numbering_tail_dot_space (c w : ascii) (r : str) :
  is_dot c = true -> is_space w = true -> numbering_tail (c :: w :: r) = [].
Proof.
  intros Hc Hw. cbn [numbering_tail].
  by rewrite (dot_not_digit c Hc), Hc, (space_not_digit w Hw).
Qed.

Lemma split_on_nonempty (sep : ascii -> bool) (s : str) : split_on sep s <> [].
Proof.
  induction s as [|c s IH]; [done|].
  simpl. destruct (sep c); [done|]. by destruct (split_on sep s).
Qed.

Lemma split_on_length_cons (sep : ascii -> bool) (c : ascii) (s : str) :
  length (split_on sep (c :: s)) =
    if sep c then S (length (split_on sep s)) else length (split_on sep s).
Proof.
  simpl. destruct (sep c); [done|].
  pose proof (split_on_nonempty sep s). by destruct (split_on sep s).
Qed.

Lemma split_on_length_digits (ds r : str) :
  Forall (fun c => is_digit c = true) ds ->
  length (split_on is_dot (ds ++ r)) = length (split_on is_dot r).
Proof.
  induction 1 as [|d ds Hd _ IH]; [done|].
  rewrite <- app_comm_cons, split_on_length_cons, (digit_not_dot d Hd). done.
Qed.

(** The level of a header made of one, two or three groups of digits
    separated by dots and followed by a blank. *)
Lemma level_of_one_group d ds w r :
  is_digit d = true -> Forall (fun c => is_digit c = true) ds ->
  is_space w = true ->
  _extract_level (d :: ds ++ w :: r) = 1.
Proof.
  intros Hd Hds Hw. unfold _extract_level, leading_numbering. rewrite Hd.
  rewrite numbering_tail_digits, numbering_tail_space, app_nil_r by done.
  rewrite split_on_length_cons, (digit_not_dot d Hd).
  rewrite <- (app_nil_r ds), split_on_length_digits by done. done.
Qed.

Lemma level_of_one_group_dot d ds c w r :
  is_digit d = true -> Forall (fun c => is_digit c = true) ds ->
  is_dot c = true -> is_space w = true ->
  _extract_level (d :: ds ++ c :: w :: r) = 1.
Proof.
  intros Hd Hds Hc Hw. unfold _extract_level, leading_numbering. rewrite Hd.
  rewrite numbering_tail_digits, numbering_tail_dot_space, app_nil_r by done.
  rewrite split_on_length_cons, (digit_not_dot d Hd).
  rewrite <- (app_nil_r ds), split_on_length_digits by done. done.
Qed.

Lemma level_of_two_groups d ds c d2 ds2 w r :
  is_digit d = true -> Forall (fun c => is_digit c = true) ds ->
  is_dot c = true ->
  is_digit d2 = true -> Forall (fun c => is_digit c = true) ds2 ->
  is_space w = true ->
  _extract_level (d :: ds ++ c :: d2 :: ds2 ++ w :: r) = 2.
Proof.
  intros Hd Hds Hc Hd2 Hds2 Hw. unfold _extract_level, leading_numbering.
  rewrite Hd.
  rewrite numbering_tail_digits, numbering_tail_dot_digit by done.
  cbn [numbering_tail]. rewrite Hd2.
  rewrite numbering_tail_digits, numbering_tail_space, app_nil_r by done.
  rewrite split_on_length_cons, (digit_not_dot d Hd).
  rewrite split_on_length_digits by done.
  rewrite split_on_length_cons, Hc.
  rewrite split_on_length_cons, (digit_not_dot d2 Hd2).
  rewrite <- (app_nil_r ds2), split_on_length_digits by done. done.
Qed.

Lemma level_of_three_groups d ds c d2 ds2 c3 d3 ds3 w r :
  is_digit d = true -> Forall (fun c => is_digit c = true) ds ->
  is_dot c = true ->
  is_digit d2 = true -> Forall (fun c => is_digit c = true) ds2 ->
  is_dot c3 = true ->
  is_digit d3 = true -> Forall (fun c => is_digit c = true) ds3 ->
  is_space w = true ->
  _extract_level (d :: ds ++ c :: d2 :: ds2 ++ c3 :: d3 :: ds3 ++ w :: r) = 3.
Proof.
  intros Hd Hds Hc Hd2 Hds2 Hc3 Hd3 Hds3 Hw.
  unfold _extract_level, leading_numbering. rewrite Hd.
  rewrite numbering_tail_digits, numbering_tail_dot_digit by done.
  cbn [numbering_tail]. rewrite Hd2.
  rewrite numbering_tail_digits, numbering_tail_dot_digit by done.
  cbn [numbering_tail]. rewrite Hd3.
  rewrite numbering_tail_digits, numbering_tail_space, app_nil_r by done.
  rewrite split_on_length_cons, (digit_not_dot d Hd).
  rewrite split_on_length_digits by done.
  rewrite split_on_length_cons, Hc.
  rewrite split_on_length_cons, (digit_not_dot d2 Hd2).
  rewrite split_on_length_digits by done.
  rewrite split_on_length_cons, Hc3.
  rewrite split_on_length_cons, (digit_not_dot d3 Hd3).
  rewrite <- (app_nil_r ds3), split_on_length_digits by done. done.
Qed.

Lemma digit_starts_no_named_header (c : ascii) (r : str) :
  is_digit c = true ->
  existsb (fun m => matches m (c :: r)) named_sections = false.
Proof.
  intros Hd.
  destruct c as [[] [] [] [] [] [] [] []];
    first [ by vm_compute in Hd | reflexivity ].
Qed.

Lemma named_header_level (h : str) :
  existsb (fun m => matches m h) named_sections = true -> _extract_level h = 1.
Proof.
  intros Hn. unfold _extract_level, leading_numbering.
  destruct h as [|c r]; [done|].
  destruct (is_digit c) eqn:Hd; [|done].
  by rewrite digit_starts_no_named_header in Hn.
Qed.

Lemma numbered_header_level (h : str) :
  existsb (fun m => matches m h) numbered_patterns = true ->
  1 <= _extract_level h <= 3
  /\ exists d r, h = d :: r /\ is_digit d = true.
Proof.
  unfold numbered_patterns. cbn [existsb].
  rewrite !orb_true_iff. unfold matches, and_then.
  intros [H|[H|[H|[H|H]]]]; [| | | |done].
  - destruct (eat_plus is_digit h) as [r1|] eqn:E1; [|done].
    destruct (eat_one is_dot r1) as [r2|] eqn:E2; [|done].
    destruct (eat_plus is_space r2) as [r3|] eqn:E3; [|done].
    apply eat_plus_shape in E1 as (d & ds & -> & Hd & Hds).
    apply eat_one_shape in E2 as (c & -> & Hc).
    apply eat_plus_shape in E3 as (w & ws & -> & Hw & _).
    rewrite level_of_one_group_dot by done. split; [lia | eauto].
  - destruct (eat_plus is_digit h) as [r1|] eqn:E1; [|done].
    destruct (eat_one is_dot r1) as [r2|] eqn:E2; [|done].
    destruct (eat_plus is_digit r2) as [r3|] eqn:E3; [|done].
    destruct (eat_plus is_space r3) as [r4|] eqn:E4; [|done].
    apply eat_plus_shape in E1 as (d & ds & -> & Hd & Hds).
    apply eat_one_shape in E2 as (c & -> & Hc).
    apply eat_plus_shape in E3 as (d2 & ds2 & -> & Hd2 & Hds2).
    apply eat_plus_shape in E4 as (w & ws & -> & Hw & _).
    rewrite level_of_two_groups by done. split; [lia | eauto].
  - destruct (eat_plus is_digit h) as [r1|] eqn:E1; [|done].
    destruct (eat_one is_dot r1) as [r2|] eqn:E2; [|done].
    destruct (eat_plus is_digit r2) as [r3|] eqn:E3; [|done].
    destruct (eat_one is_dot r3) as [r4|] eqn:E4; [|done].
    destruct (eat_plus is_digit r4) as [r5|] eqn:E5; [|done].
    destruct (eat_plus is_space r5) as [r6|] eqn:E6; [|done].
    apply eat_plus_shape in E1 as (d & ds & -> & Hd & Hds).
    apply eat_one_shape in E2 as (c & -> & Hc).
    apply eat_plus_shape in E3 as (d2 & ds2 & -> & Hd2 & Hds2).
    apply eat_one_shape in E4 as (c3 & -> & Hc3).
    apply eat_plus_shape in E5 as (d3 & ds3 & -> & Hd3 & Hds3).
    apply eat_plus_shape in E6 as (w & ws & -> & Hw & _).
    rewrite level_of_three_groups by done. split; [lia | eauto].
  - destruct (eat_plus is_digit h) as [r1|] eqn:E1; [|done].
    destruct (eat_plus is_space r1) as [r2|] eqn:E2; [|done].
    apply eat_plus_shape in E1 as (d & ds & -> & Hd & Hds).
    apply eat_plus_shape in E2 as (w & ws & -> & Hw & _).
    rewrite level_of_one_group by done. split; [lia | eauto].
Qed.

(** The three answers of [_is_section_header]. *)
Lemma is_section_header_cases (h : str) :
  (_is_section_header h = (true, Some (lit "named"), 1)
   /\ _extract_level h = 1)
  \/ (_is_section_header h = (true, Some (lit "numbered"), _extract_level h)
      /\ 1 <= _extract_level h <= 3
      /\ exists d r, h = d :: r /\ is_digit d = true)
  \/ _is_section_header h = (false, None, 0).
Proof.
  unfold _is_section_header.
  destruct (existsb _ named_sections) eqn:En.
  - left. split; [done | by apply named_header_level].
  - destruct (existsb _ numbered_patterns) eqn:Eu; [|by right; right].
    right. left. split; [done|]. by apply numbered_header_level.
Qed.

Lemma hierarchy_loop_root l : forall m i s,
  Forall (fun s => parentSectionId s = None) l ->
  hierarchy_loop m l !! i = Some s ->
  level s <= 1 -> parentSectionId s = None.
Proof.
  induction l as [|r l IH]; intros m i s Hall Hi Hlv; [done|].
  apply Forall_cons in Hall as [Hr Hall].
  destruct i as [|i]; simpl in Hi; [|by eapply IH].
  injection Hi as <-. rewrite (link_parent_field level) in Hlv by done.
  unfold link_parent. by destruct (Nat.ltb_spec 1 (level r)); [lia|].
Qed.

Lemma extract_sections_root document toc s :
  s ∈ extract_sections document toc -> level s <= 1 ->
  parentSectionId s = None.
Proof.
  intros [i Hi]%list_elem_of_lookup. rewrite extract_sections_unfold in Hi.
  apply (hierarchy_loop_root _ _ _ _ (renumber_no_parent _ _
           (filtered_sections_no_parent document toc)) Hi).
Qed.

Lemma is_blank_line_ink (l : str) : is_blank_line l = false -> has_ink l = true.
Proof.
  unfold is_blank_line. destruct (strip l) as [|c r] eqn:E; [done|].
  intros _. by apply (strip_cons_ink _ c r).
Qed.

Lemma made_from_content document L s :
  made_from document L s ->
  is_trimmed_text (content s)
  /\ exists kept, kept <> [] /\ Forall (body_line L) kept
                  /\ content s = strip (join newline kept).
Proof.
  intros (n & header & cl & ty & pg & -> & _ & Hne & Hall & _).
  cbn [content _create_section]. split; [|by exists cl].
  apply strip_trimmed, has_ink_join.
  destruct cl as [|l ls]; [done|].
  apply Forall_cons in Hall as [(_ & Hb & _) _].
  apply Exists_cons_hd. by apply is_blank_line_ink.
Qed.

Lemma made_from_header document L s :
  made_from document L s ->
  exists line, line ∈ L /\ is_heading_line line = true
    /\ title s = py_prefix 200 (strip line)
    /\ sectionType s = (_is_section_header (strip line)).1.2
    /\ level s = _extract_level (strip line)
    /\ (1 <= pageNumber s)%Z.
Proof.
  intros (n & header & cl & ty & pg & -> & (line & HL & Hh & -> & ->) & _ & _ & Hpg).
  by exists line.
Qed.

Lemma update_stack_nearest m earlier s :
  (forall k, m !! k = nearest_at_level earlier k) ->
  forall k, update_stack m s !! k = nearest_at_level (s :: earlier) k.
Proof.
  intros Hm k. unfold update_stack. cbn [nearest_at_level].
  apply option_eq. intros x.
  rewrite map_lookup_filter_Some, lookup_insert_Some. simpl.
  destruct (Nat.eqb_spec (level s) k) as [->|Hne].
  - split; [intros [[[_ <-]|[? _]] _]; done | intros [= <-]; auto].
  - destruct (Nat.ltb_spec (level s) k).
    + split; [intros [_ ?]; lia | done].
    + rewrite <- Hm. split; [by intros [[[? _]|[_ ?]] _] | intros ?].
      split; [by right | lia].
Qed.

Lemma hierarchy_loop_nearest l : forall m earlier i s,
  Forall (fun s => parentSectionId s = None) l ->
  (forall k, m !! k = nearest_at_level earlier k) ->
  hierarchy_loop m l !! i = Some s ->
  parentSectionId s =
    if 1 <? level s
    then sectionId <$>
           nearest_at_level (rev (take i (hierarchy_loop m l)) ++ earlier)
             (level s - 1)
    else None.
Proof.
  induction l as [|r l IH]; intros m earlier i s Hall Hm Hi; [done|].
  apply Forall_cons in Hall as [Hr Hall].
  destruct i as [|i]; cbn [hierarchy_loop lookup list_lookup] in Hi.
  - injection Hi as <-. cbn [take rev app].
    rewrite (link_parent_field level) by done. rewrite <- Hm.
    unfold link_parent. destruct (1 <? level r); [|done].
    by destruct (m !! (level r - 1)).
  - rewrite (IH _ (link_parent m r :: earlier) _ _ Hall
               (update_stack_nearest _ _ _ Hm) Hi).
    cbn [hierarchy_loop take rev]. by rewrite <- app_assoc.
Qed.

Lemma filter_toc_sections_empty_range l toc :
  (endPage toc < startPage toc)%Z -> _filter_toc_sections l toc = l.
Proof.
  intros Hlt. induction l as [|s l IH]; [done|].
  simpl. rewrite IH.
  destruct (Z.leb_spec (startPage toc) (pageNumber s));
    destruct (Z.leb_spec (pageNumber s) (endPage toc)); simpl; try done.
  lia.
Qed.

Lemma scan_line_page document st n line :
  current_page (scan_line document st n line) = page_of_line n.
Proof.
  unfold scan_line.
  destruct (strip line) as [|c r]; [done|].
  destruct (_is_section_header (c :: r)) as [[[] ty] lv].
  - by destruct (pending_section _ _).
  - by destruct (header_open _).
Qed.

(** After the loop, [current_page] is the page of the last line read. *)
Lemma scan_lines_page document lines : forall st n,
  lines <> [] ->
  current_page (scan_lines document st n lines)
    = page_of_line (n + length lines - 1).
Proof.
  induction lines as [|l ls IH]; intros st n Hne; [done|].
  cbn [scan_lines]. destruct ls as [|l2 ls].
  - cbn [scan_lines length]. rewrite scan_line_page. f_equal. lia.
  - rewrite IH by done. f_equal. simpl. lia.
Qed.

Lemma pending_section_page document st s :
  pending_section document st = Some s -> pageNumber s = current_page st.
Proof.
  unfold pending_section.
  destruct (header_open _); [|done].
  destruct (current_section_lines st); [done|]. by intros [= <-].
Qed.

Lemma filter_nonempty_source {A} (P : A -> Prop) `{!forall x, Decision (P x)}
    (l : list A) : filter P l <> [] -> l <> [].
Proof. by destruct l. Qed.

(** The section between two header lines, with its page. *)
Lemma section_between_headings_page document pre h body rest :
  lines_of document = pre ++ h :: body ++ rest ->
  is_heading_line h = true ->
  Forall (fun l => is_heading_line l = false) body ->
  match rest with [] => True | h' :: _ => is_heading_line h' = true end ->
  filter (fun l => is_blank_line l = false) body <> [] ->
  exists s, s ∈ raw_sections document
    /\ title s = py_prefix 200 (strip h)
    /\ content s =
         strip (join newline (filter (fun l => is_blank_line l = false) body))
    /\ pageNumber s =
         page_of_line (length pre + length body
                       + match rest with [] => 0 | _ :: _ => 1 end).
Proof.
  intros Hlines Hh Hbody Hrest Hkept.
  pose proof (filter_nonempty_source _ _ Hkept) as Hbne.
  set (st1 := scan_lines document initial_state 0 pre).
  set (n := 0 + length pre).
  set (st2 := scan_line document st1 n h).
  set (st3 := scan_lines document st2 (S n) body).
  destruct (scan_line_heading document st1 n h Hh) as [Hopen2 Hnil2].
  fold st2 in Hopen2, Hnil2.
  destruct (scan_lines_body document body st2 (S n) (strip h) Hopen2 Hbody)
    as (_ & Hhd3 & _ & _ & Hl3).
  fold st3 in Hhd3, Hl3. rewrite Hnil2 in Hl3. simpl in Hl3.
  destruct (filter (fun l => is_blank_line l = false) body) as [|k ks] eqn:Ek;
    [done|].
  assert (Hfinal : scan_lines document initial_state 0
                     (split_on is_newline (doc_fullText document)) =
                   scan_lines document st3 (S n + length body) rest).
  { fold (lines_of document).
    rewrite Hlines, scan_lines_app. fold st1 n. cbn [scan_lines]. fold st2.
    by rewrite scan_lines_app. }
  destruct rest as [|h' rest].
  - destruct (pending_section_open document st3 (strip h) k ks) as (s & Hp & Ht & Hc);
      [by rewrite Hhd3 | done |].
    exists s. split; [|split; [done|split; [done|]]].
    + unfold raw_sections. rewrite Hfinal. cbn [scan_lines].
      rewrite Hp. apply elem_of_app. right. constructor.
    + rewrite (pending_section_page _ _ _ Hp). unfold st3.
      rewrite scan_lines_page by done. f_equal. unfold n. lia.
  - set (pg := Z.of_nat ((S n + length body) / lines_per_page + 1)).
    destruct (pending_section_open document (with_page st3 pg) (strip h) k ks)
      as (s & Hp & Ht & Hc); [by simpl; rewrite Hhd3 | done |].
    exists s. split; [|split; [done|split; [done|]]].
    + apply raw_sections_extends. rewrite Hfinal. cbn [scan_lines].
      destruct (scan_lines_sections document rest
                  (scan_line document st3 (S n + length body) h')
                  (S (S n + length body))) as [more ->].
      rewrite (scan_line_heading_saves _ _ _ _ s Hrest Hp).
      apply elem_of_app. left. apply elem_of_app. right. constructor.
    + rewrite (pending_section_page _ _ _ Hp). cbn [current_page with_page].
      unfold pg, page_of_line.
      by replace (S n + length body) with (length pre + length body + 1)
        by (unfold n; lia).
Qed.

(** ** Further properties of [extract_sections] *)

(** X1.  Every section returned by [extract_sections] is of type [named] or
    [numbered] and of level 1, 2 or 3; a named section is of level 1, and a
    section of level 1 has no parent. *)
Theorem section_type_and_level document toc s
    (Hs : s ∈ extract_sections document toc) :
  1 <= level s <= 3
  /\ (sectionType s = Some (lit "named")
      \/ sectionType s = Some (lit "numbered"))
  /\ (sectionType s = Some (lit "named") -> level s = 1)
  /\ (level s = 1 -> parentSectionId s = None).
Proof.
  pose proof (extract_sections_root _ _ _ Hs) as Hroot.
  destruct (extract_sections_made _ _ _ Hs) as (r & Hr & Heq).
  destruct (made_from_header _ _ _ Hr) as (line & _ & Hh & _ & Hty & Hlv & _).
  assert (Hty' : sectionType s = (_is_section_header (strip line)).1.2)
    by (by rewrite Heq).
  assert (Hlv' : level s = _extract_level (strip line)) by (by rewrite Heq).
  unfold is_heading_line in Hh.
  destruct (strip line) as [|c t] eqn:Es; [done|].
  destruct (is_section_header_cases (c :: t)) as [[E L1]|[(E & L & _)|E]];
    rewrite E in Hh, Hty'; simpl in Hh, Hty'; [| |done].
  - rewrite Hlv', L1. split; [lia|]. split; [by left|]. split; [done|].
    intros _. apply Hroot. lia.
  - rewrite Hlv'. split; [done|]. split; [by right|].
    split; [by rewrite Hty'|]. intros H1. apply Hroot. lia.
Qed.

Lemma section_type_and_level_witness :
  1 <= level section_nested <= 3
  /\ (sectionType section_nested = Some (lit "named")
      \/ sectionType section_nested = Some (lit "numbered"))
  /\ (sectionType section_nested = Some (lit "named") ->
      level section_nested = 1)
  /\ (level section_nested = 1 -> parentSectionId section_nested = None).
Proof.
  apply (section_type_and_level doc_nested None section_nested).
  vm_compute. apply list_elem_of_In. right. left. reflexivity.
Defined.

(** X2.  The title of every section returned by [extract_sections] is the
    first 200 characters of a header line of the document, stripped; it is
    not empty and has at most 200 characters. *)
Theorem section_title_is_header_line document toc s
    (Hs : s ∈ extract_sections document toc) :
  exists line,
    line ∈ lines_of document
    /\ is_heading_line line = true
    /\ title s = py_prefix 200 (strip line)
    /\ title s <> []
    /\ length (title s) <= 200.
Proof.
  destruct (extract_sections_made _ _ _ Hs) as (r & Hr & Heq).
  destruct (made_from_header _ _ _ Hr) as (line & HL & Hh & Ht & _).
  assert (Ht' : title s = py_prefix 200 (strip line)) by (by rewrite Heq).
  exists line. split; [done|]. split; [done|]. split; [done|].
  rewrite Ht'. unfold py_prefix. split.
  - unfold is_heading_line in Hh. by destruct (strip line).
  - rewrite length_take. lia.
Qed.

Lemma section_title_is_header_line_witness :
  exists line,
    line ∈ lines_of doc_nested
    /\ is_heading_line line = true
    /\ title section_nested = py_prefix 200 (strip line)
    /\ title section_nested <> []
    /\ length (title section_nested) <= 200.
Proof.
  apply (section_title_is_header_line doc_nested None section_nested).
  vm_compute. apply list_elem_of_In. right. left. reflexivity.
Defined.

(** X3.  The content of every section returned by [extract_sections] is not
    empty and has no blank at either end; it is the stripped newline-join of
    lines of the document that are neither blank nor header lines. *)
Theorem section_content_is_trimmed document toc s
    (Hs : s ∈ extract_sections document toc) :
  is_trimmed_text (content s)
  /\ exists kept,
       kept <> []
       /\ Forall (body_line (lines_of document)) kept
       /\ content s = strip (join newline kept).
Proof.
  destruct (extract_sections_made _ _ _ Hs) as (r & Hr & Heq).
  destruct (made_from_content _ _ _ Hr) as [Htrim Hkept].
  assert (Hc : content s = content r) by (by rewrite Heq).
  by rewrite Hc.
Qed.

Lemma section_content_is_trimmed_witness :
  is_trimmed_text (content section_nested)
  /\ exists kept,
       kept <> []
       /\ Forall (body_line (lines_of doc_nested)) kept
       /\ content section_nested = strip (join newline kept).
Proof.
  apply (section_content_is_trimmed doc_nested None section_nested).
  vm_compute. apply list_elem_of_In. right. left. reflexivity.
Defined.

(** X4.  When no line of the document is a header line, in particular for
    an empty text, [extract_sections] returns no section: the text that
    comes before the first header line is kept in no section. *)
Theorem no_heading_no_section document toc
    (Hnone : Forall (fun l => is_heading_line l = false) (lines_of document)) :
  extract_sections document toc = [].
Proof.
  destruct (extract_sections document toc) as [|s l] eqn:E; [done|].
  assert (Hs : s ∈ extract_sections document toc) by (rewrite E; by left).
  destruct (extract_sections_made _ _ _ Hs) as (r & Hr & _).
  destruct (made_from_header _ _ _ Hr) as (line & HL & Hh & _).
  rewrite Forall_forall in Hnone. by rewrite (Hnone line HL) in Hh.
Qed.

Lemma no_heading_no_section_witness :
  extract_sections doc_no_heading None = [].
Proof.
  apply (no_heading_no_section doc_no_heading None).
  change (lines_of doc_no_heading)
    with (split_on is_newline (doc_fullText doc_no_heading)).
  repeat constructor.
Defined.

(** X5.  A table of contents whose last page comes before its first page,
    as [extract_toc] returns for a candidate page of 2 or less, filters
    nothing: [extract_sections] returns what it returns without a table of
    contents. *)
Theorem empty_toc_range_filters_nothing document toc
    (Hrange : (endPage toc < startPage toc)%Z) :
  extract_sections document (Some toc) = extract_sections document None.
Proof.
  rewrite !extract_sections_unfold. simpl.
  by rewrite filter_toc_sections_empty_range.
Qed.

Lemma empty_toc_range_filters_nothing_witness :
  extract_sections doc_two_headings (Some toc_empty_range)
    = extract_sections doc_two_headings None.
Proof.
  apply (empty_toc_range_filters_nothing doc_two_headings toc_empty_range).
  reflexivity.
Defined.

(** X6.  The parent that [_build_hierarchy] gives to the section at position
    [i] of the output, of level [L > 1], is the most recent section before
    it of level [L - 1], provided no section of a level below [L - 1] stands
    between the two; otherwise, and at level 1, the section has no parent. *)
Theorem parent_is_nearest_one_level_up document toc i s
    (Hi : extract_sections document toc !! i = Some s) :
  parentSectionId s =
    if 1 <? level s
    then sectionId <$>
           nearest_at_level (rev (take i (extract_sections document toc)))
             (level s - 1)
    else None.
Proof.
  rewrite extract_sections_unfold in *. unfold _build_hierarchy in *.
  rewrite (hierarchy_loop_nearest
             (renumber 0 (filtered_sections document toc)) ∅ [] i s);
    [by rewrite app_nil_r | | | done].
  - apply renumber_no_parent, filtered_sections_no_parent.
  - intros k. apply lookup_empty.
Qed.

Lemma parent_is_nearest_one_level_up_witness :
  parentSectionId section_nested =
    if 1 <? level section_nested
    then sectionId <$>
           nearest_at_level (rev (take 1 (extract_sections doc_nested None)))
             (level section_nested - 1)
    else None.
Proof.
  apply (parent_is_nearest_one_level_up doc_nested None 1 section_nested).
  reflexivity.
Defined.

(** X7.  The page of a section is the estimated page of the line that closes
    it, not of its header line: for a header line [h] followed by the lines
    [body], none of them a header line and one of them not blank, the
    section saved for [h] has the page of the next header line, or of the
    last line of the text when no header line follows. *)
Theorem section_page_is_page_of_closing_line
    document pre h body rest
    (Hlines : lines_of document = pre ++ h :: body ++ rest)
    (Hh : is_heading_line h = true)
    (Hbody : Forall (fun l => is_heading_line l = false) body)
    (Hrest : match rest with
             | [] => True
             | h' :: _ => is_heading_line h' = true
             end)
    (Hkept : filter (fun l => is_blank_line l = false) body <> []) :
  exists s,
    s ∈ raw_sections document
    /\ title s = py_prefix 200 (strip h)
    /\ pageNumber s =
         page_of_line (length pre + length body
                       + match rest with [] => 0 | _ :: _ => 1 end).
Proof.
  destruct (section_between_headings_page document pre h body rest)
    as (s & Hs & Ht & _ & Hp); try done.
  by exists s.
Qed.

Lemma section_page_is_page_of_closing_line_witness :
  exists s,
    s ∈ raw_sections doc_long_section
    /\ title s = py_prefix 200 (strip (lit "1. TITOLO"))
    /\ pageNumber s = page_of_line (0 + 61 + 0).
Proof.
  apply (section_page_is_page_of_closing_line doc_long_section
           [] (lit "1. TITOLO") (lit "corpo" :: replicate 60 []) []).
  - reflexivity.
  - reflexivity.
  - repeat constructor.
  - exact I.
  - vm_compute. discriminate.
Defined.

(** The header of that section is on page 1, its page is 2. *)
Example page_of_long_section :
  pageNumber <$> extract_sections doc_long_section None = [2%Z].
Proof. by vm_compute. Qed.

(** ** The sentences and the buffers of the chunker *)

Lemma separator_at_prefix (s sep : str) :
  separator_at s = Some sep ->
  sep <> [] /\ exists rest, s = sep ++ rest.
Proof.
  unfold separator_at. intros H.
  pose proof (take_drop_while is_terminator s) as H1.
  pose proof (take_drop_while is_space (drop_while is_terminator s)) as H2.
  set (rest := drop_while is_space (drop_while is_terminator s)) in *.
  destruct (take_while is_terminator s) as [|t run]; [done|].
  destruct (take_while is_space (drop_while is_terminator s)) as [|w ws];
    [done|].
  injection H as <-. split; [done|]. exists rest.
  rewrite <- H2 in H1. symmetry in H1. etrans; [exact H1|]. apply app_assoc.
Qed.

Lemma re_split_concat (s : str) : forall piece skip,
  concat (re_split piece skip s) = rev piece ++ drop skip s.
Proof.
  induction s as [|c s IH]; intros piece skip.
  - simpl. by rewrite drop_nil, app_nil_r.
  - cbn [re_split]. destruct skip as [|k]; [|by rewrite IH].
    destruct (separator_at (c :: s)) as [sep|] eqn:E.
    + apply separator_at_prefix in E as (Hne & rest & Hs).
      destruct sep as [|c' sep]; [done|]. injection Hs as <- ->.
      cbn [concat length]. rewrite IH. cbn [rev app].
      replace (S (length sep) - 1) with (length sep) by lia.
      by rewrite drop_app_length.
    + rewrite IH. cbn [rev drop]. by rewrite <- app_assoc.
Qed.

Lemma re_split_odd (s : str) : forall piece skip,
  Nat.odd (length (re_split piece skip s)) = true.
Proof.
  induction s as [|c s IH]; intros piece skip; [done|].
  cbn [re_split]. destruct skip as [|k]; [|apply IH].
  destruct (separator_at (c :: s)) as [sep|]; [|apply IH].
  cbn [length]. rewrite Nat.odd_succ_succ. apply IH.
Qed.

Lemma ink_of_app (a b : str) : ink_of (a ++ b) = ink_of a ++ ink_of b.
Proof. apply List.filter_app. Qed.

Lemma ink_of_rev (s : str) : ink_of (rev s) = rev (ink_of s).
Proof.
  induction s as [|c s IH]; [done|].
  cbn [rev]. rewrite ink_of_app, IH. simpl.
  destruct (is_space c); simpl; [by rewrite app_nil_r | done].
Qed.

Lemma ink_of_drop_while (s : str) : ink_of (drop_while is_space s) = ink_of s.
Proof.
  induction s as [|c s IH]; [done|].
  simpl. destruct (is_space c) eqn:E; simpl; [done | by rewrite E].
Qed.

Lemma ink_of_strip (s : str) : ink_of (strip s) = ink_of s.
Proof.
  unfold strip, lstrip, rstrip.
  by rewrite ink_of_drop_while, ink_of_rev, ink_of_drop_while, ink_of_rev,
             rev_involutive.
Qed.

Lemma ink_of_nil_iff (s : str) : ink_of s = [] <-> has_ink s = false.
Proof.
  induction s as [|c s IH]; [done|].
  simpl. destruct (is_space c); simpl; [done|]. split; discriminate.
Qed.

Lemma last_cons_cons {A} (a b : A) (l : list A) (d : A) :
  List.last (a :: b :: l) d = List.last (b :: l) d.
Proof. done. Qed.

(** The sentences built from the pieces keep the characters of the pieces
    that are not blanks. *)
Lemma recombine_ink_of (l : list str) :
  (ink_of (concat (recombine l))
   ++ (if Nat.odd (length l) then ink_of (List.last l []) else [])
   = ink_of (concat l))
  /\ forall a,
     ink_of (concat (recombine (a :: l)))
     ++ (if Nat.odd (length (a :: l)) then ink_of (List.last (a :: l) []) else [])
     = ink_of (concat (a :: l)).
Proof.
  induction l as [|b l [IH1 IH2]].
  - split; [done|]. intros a. simpl. by rewrite app_nil_r.
  - split; [apply IH2|]. intros a.
    cbn [recombine length concat]. rewrite Nat.odd_succ_succ, last_cons_cons.
    assert (Hlast : (if Nat.odd (length l) then ink_of (List.last (b :: l) []) else [])
                    = (if Nat.odd (length l) then ink_of (List.last l []) else [])).
    { destruct l as [|x l]; [done|]. by rewrite last_cons_cons. }
    rewrite Hlast, app_assoc, !ink_of_app, <- IH1, <- (ink_of_app a b),
            <- (ink_of_strip (a ++ b)).
    destruct (strip (a ++ b)) as [|c r]; [done|].
    cbn [concat]. by rewrite ink_of_app, <- !app_assoc.
Qed.

Lemma recombine_trimmed (l : list str) :
  Forall is_trimmed_text (recombine l)
  /\ forall a, Forall is_trimmed_text (recombine (a :: l)).
Proof.
  induction l as [|b l [IH1 IH2]]; [by split; [|intros a]; constructor|].
  split; [apply IH2|].
  intros a. simpl.
  destruct (strip (a ++ b)) as [|c r] eqn:E; [done|].
  constructor; [|done].
  rewrite <- E. apply strip_trimmed, strip_nonempty_iff. by rewrite E.
Qed.

(** The sentences before the fallback to the whole text. *)
Lemma split_into_sentences_result (text : str) :
  exists result,
    Forall is_trimmed_text result
    /\ ink_of (concat result) = ink_of text
    /\ _split_into_sentences text
       = match result with [] => [text] | _ :: _ => result end.
Proof.
  unfold _split_into_sentences.
  assert (Hcat : concat (re_split [] 0 text) = text)
    by (by rewrite re_split_concat).
  pose proof (re_split_odd text [] 0) as Hodd.
  destruct (recombine_ink_of (re_split [] 0 text)) as [Hink _].
  destruct (recombine_trimmed (re_split [] 0 text)) as [Htrim _].
  rewrite Hodd, Hcat in Hink. rewrite Hodd.
  rewrite <- (ink_of_strip (List.last (re_split [] 0 text) [])) in Hink.
  destruct (strip (List.last (re_split [] 0 text) [])) as [|c r] eqn:E.
  - exists (recombine (re_split [] 0 text)). split; [done|].
    split; [|done]. cbn [ink_of List.filter] in Hink.
    by rewrite app_nil_r in Hink.
  - exists (recombine (re_split [] 0 text) ++ [c :: r]).
    split; [|split; [|done]].
    + apply Forall_app. split; [done|]. constructor; [|constructor].
      rewrite <- E. apply strip_trimmed, strip_nonempty_iff. by rewrite E.
    + by rewrite concat_app, ink_of_app, <- Hink; simpl; rewrite app_nil_r.
Qed.

Lemma trimmed_has_ink (s : str) : is_trimmed_text s -> has_ink s = true.
Proof.
  intros (Hne & Hs & _). destruct s as [|c s]; [done|].
  simpl in *. by rewrite Hs.
Qed.

Lemma split_into_sentences_inked (text : str) :
  has_ink text = true ->
  _split_into_sentences text <> []
  /\ Forall (fun s => has_ink s = true) (_split_into_sentences text).
Proof.
  intros Hink.
  destruct (split_into_sentences_result text) as (result & Htrim & _ & ->).
  destruct result as [|x l]; [by split; [|repeat constructor]|].
  split; [done|]. eapply Forall_impl; [exact Htrim|]. apply trimmed_has_ink.
Qed.

Lemma chunk_step_text_ink self section st sentence :
  has_ink sentence = true ->
  has_ink (current_chunk_text (chunk_step self section st sentence)) = true.
Proof.
  intros Hs. unfold chunk_step.
  destruct (_ && _)%bool; cbn [current_chunk_text];
    rewrite !has_ink_app, Hs; by rewrite !orb_true_r.
Qed.

Lemma chunk_loop_text_ink self section sentences st :
  sentences <> [] -> Forall (fun s => has_ink s = true) sentences ->
  has_ink (current_chunk_text (chunk_loop self section st sentences)) = true.
Proof.
  intros Hne Hall.
  destruct sentences as [|x l _] using rev_ind; [done|].
  unfold chunk_loop. rewrite fold_left_app. cbn [fold_left].
  apply chunk_step_text_ink.
  apply Forall_app in Hall as [_ Hx]. by inversion Hx.
Qed.

Lemma chunk_step_shape self section st sentence :
  chunk_shape_inv section st ->
  chunk_shape_inv section (chunk_step self section st sentence).
Proof.
  intros [Hidx Hall]. unfold chunk_step.
  destruct (_ && _)%bool; split; cbn [chunks chunk_index]; try done.
  - rewrite length_app. simpl. lia.
  - intros i c Hi. apply lookup_app_Some in Hi as [Hi|[Hge Hi]]; [by apply Hall|].
    apply list_lookup_singleton_Some in Hi as [Hi <-].
    exists (strip (current_chunk_text st)). f_equal. lia.
Qed.

Lemma chunk_loop_shape self section sentences : forall st,
  chunk_shape_inv section st ->
  chunk_shape_inv section (chunk_loop self section st sentences).
Proof.
  induction sentences as [|s l IH]; intros st Hst; [done|].
  simpl. apply IH. by apply chunk_step_shape.
Qed.

(** The chunk at position [i] of [chunk_section] was made by
    [_create_chunk] with the index [i]. *)
Lemma chunk_section_shape self section i c :
  chunk_section self section !! i = Some c ->
  exists text, c = _create_chunk section i text (pageNumber section).
Proof.
  unfold chunk_section. destruct (_ || _)%bool.
  - intros Hi. apply list_lookup_singleton_Some in Hi as [-> <-]. eauto.
  - set (st := chunk_loop _ _ _ _).
    assert (Hinv : chunk_shape_inv section st).
    { apply chunk_loop_shape. split; [done|]. by intros j x Hj. }
    destruct Hinv as [Hidx Hall].
    destruct (strip (current_chunk_text st)) as [|a r]; [by apply Hall|].
    intros Hi. apply lookup_app_Some in Hi as [Hi|[Hge Hi]]; [by apply Hall|].
    apply list_lookup_singleton_Some in Hi as [Hi <-].
    exists (a :: r). f_equal. lia.
Qed.

Lemma after_sentence_start_suffix (s rest : str) :
  after_sentence_start s = Some rest -> rest `suffix_of` s.
Proof.
  induction s as [|c s IH]; [done|].
  cbn [after_sentence_start]. intros H. apply suffix_cons_r.
  destruct (is_terminator c); [|by apply IH].
  destruct s as [|d s']; [done|].
  destruct (is_space d); [|by apply IH].
  injection H as <-.
  destruct (drop_while_suffix is_space (d :: s')) as [pre Hpre].
  by exists pre.
Qed.

Lemma py_slice_from_suffix (start : Z) (s : str) :
  py_slice_from start s `suffix_of` s.
Proof. unfold py_slice_from. destruct (_ <? _)%Z; apply suffix_drop. Qed.

Lemma get_overlap_text_suffix (text : str) (overlap_chars : Z) :
  _get_overlap_text text overlap_chars `suffix_of` text.
Proof.
  unfold _get_overlap_text. destruct (_ <=? _)%Z; [done|].
  destruct (after_sentence_start _) as [rest|] eqn:E;
    [|apply py_slice_from_suffix].
  etrans; [by apply after_sentence_start_suffix | apply py_slice_from_suffix].
Qed.

Lemma string_of_uint_digits (d : Decimal.uint) :
  Forall (fun c => is_digit c = true)
    (list_ascii_of_string (NilEmpty.string_of_uint d)).
Proof. induction d; simpl; by constructor. Qed.

Lemma str_of_nat_digits (n : nat) :
  Forall (fun c => is_digit c = true) (str_of_nat n).
Proof. apply string_of_uint_digits. Qed.

Lemma take_while_digits_app (ds : str) (c : ascii) (r : str) :
  Forall (fun c => is_digit c = true) ds -> is_digit c = false ->
  take_while is_digit (ds ++ c :: r) = ds.
Proof.
  intros Hds Hc. induction Hds as [|d ds Hd _ IH]; simpl.
  - by rewrite Hc.
  - by rewrite Hd, IH.
Qed.

(** Two numbers written before a tag that starts with no digit are
    equal when the texts are. *)
Lemma str_of_nat_tag_inj (a b : nat) (c : ascii) (x y : str) :
  is_digit c = false ->
  str_of_nat a ++ c :: x = str_of_nat b ++ c :: y -> a = b /\ x = y.
Proof.
  intros Hc H.
  assert (Hab : str_of_nat a = str_of_nat b).
  { rewrite <- (take_while_digits_app (str_of_nat a) c x),
            <- (take_while_digits_app (str_of_nat b) c y)
      by (done || apply str_of_nat_digits).
    by rewrite H. }
  rewrite Hab in H. apply app_inv_head in H. injection H as ->.
  split; [by apply str_of_nat_inj | done].
Qed.

Lemma chunk_id_inj d i k i' k' :
  section_id d i ++ lit "_CHK_" ++ str_of_nat k
    = section_id d i' ++ lit "_CHK_" ++ str_of_nat k' ->
  i = i' /\ k = k'.
Proof.
  unfold section_id. rewrite <- !app_assoc. intros H.
  apply app_inv_head, app_inv_head in H.
  apply (str_of_nat_tag_inj i i' "_"%char) in H as [-> H]; [|done].
  injection H as H. split; [done | by apply str_of_nat_inj].
Qed.

Lemma extract_sections_section_id document toc s :
  s ∈ extract_sections document toc ->
  exists i, sectionId s = section_id (doc_documentId document) i.
Proof.
  intros [j Hj]%list_elem_of_lookup.
  apply extract_sections_lookup_raw in Hj as (r & _ & Hr & Hs).
  apply list_elem_of_lookup in Hr as [i Hi].
  destruct (raw_sections_ok document i r Hi) as [Hid _].
  exists i. by rewrite Hs.
Qed.

Lemma extract_sections_same_id document toc s1 s2 :
  s1 ∈ extract_sections document toc -> s2 ∈ extract_sections document toc ->
  sectionId s1 = sectionId s2 -> s1 = s2.
Proof.
  intros [i Hi]%list_elem_of_lookup [j Hj]%list_elem_of_lookup Hid.
  assert (i = j) as ->; [|congruence].
  apply (NoDup_lookup _ i j (sectionId s1)
           (extract_sections_ids_NoDup document toc));
    rewrite list_lookup_fmap; [by rewrite Hi | by rewrite Hj, Hid].
Qed.

Lemma chunk_section_lookup_index self section i c :
  chunk_section self section !! i = Some c ->
  chunkIndex c = i /\ chunk_sectionId c = sectionId section
  /\ chunk_documentId c = documentId section
  /\ chunk_pageNumber c = pageNumber section
  /\ chunkId c = sectionId section ++ lit "_CHK_" ++ str_of_nat i.
Proof. intros [text ->]%chunk_section_shape. done. Qed.

Lemma chunk_section_NoDup self section : NoDup (chunk_section self section).
Proof.
  apply NoDup_alt. intros i j c Hi Hj.
  apply chunk_section_lookup_index in Hi as [Hi _].
  apply chunk_section_lookup_index in Hj as [Hj _]. congruence.
Qed.

Lemma chunk_section_nonempty self section :
  has_ink (content section) = true -> chunk_section self section <> [].
Proof.
  intros Hink. unfold chunk_section. destruct (_ || _)%bool; [done|].
  destruct (split_into_sentences_inked _ Hink) as [Hne Hall].
  pose proof (chunk_loop_text_ink self section
                (_split_into_sentences (content section))
                {| chunks := []; current_chunk_text := []; chunk_index := 0 |}
                Hne Hall) as Htext.
  apply strip_nonempty_iff in Htext.
  destruct (strip (current_chunk_text _)) as [|a r]; [done|].
  intros H. by apply app_eq_nil in H as [_ ?].
Qed.

Lemma split_into_sentences_blank (text : str) :
  has_ink text = false -> _split_into_sentences text = [text].
Proof.
  intros Hno.
  destruct (split_into_sentences_result text) as (result & Htrim & Hink & ->).
  destruct result as [|x l]; [done|].
  apply Forall_cons in Htrim as [Hx _]. apply trimmed_has_ink in Hx.
  apply ink_of_nil_iff in Hno. rewrite Hno in Hink.
  cbn [concat] in Hink. rewrite ink_of_app in Hink.
  apply app_eq_nil in Hink as [Hx' _]. apply ink_of_nil_iff in Hx'. congruence.
Qed.

(** ** Further properties of the chunker *)

(** X8.  The chunks of a section are numbered 0, 1, ... in list order; each
    carries the identifier, the document and the page of the section, and an
    identifier made of the identifier of the section, [_CHK_] and its index;
    so the identifiers of the chunks of a section are pairwise distinct. *)
Theorem chunk_indices_and_identifiers self section :
  chunkIndex <$> chunk_section self section
    = seq 0 (length (chunk_section self section))
  /\ Forall (fun c =>
       chunk_sectionId c = sectionId section
       /\ chunk_documentId c = documentId section
       /\ chunk_pageNumber c = pageNumber section
       /\ chunkId c
          = sectionId section ++ lit "_CHK_" ++ str_of_nat (chunkIndex c))
       (chunk_section self section)
  /\ NoDup (chunkId <$> chunk_section self section).
Proof.
  split; [|split].
  - apply list_eq. intros i. rewrite list_lookup_fmap.
    destruct (chunk_section self section !! i) as [c|] eqn:E; simpl.
    + pose proof (lookup_lt_Some _ _ _ E).
      apply chunk_section_lookup_index in E as [-> _].
      by rewrite lookup_seq_lt.
    + apply lookup_ge_None in E. by rewrite lookup_seq_ge.
  - apply Forall_forall. intros c [i Hi]%list_elem_of_lookup.
    apply chunk_section_lookup_index in Hi as (-> & ? & ? & ? & ?). done.
  - apply NoDup_alt. intros i j x. rewrite !list_lookup_fmap.
    destruct (chunk_section self section !! i) as [ci|] eqn:Ei; [|done].
    destruct (chunk_section self section !! j) as [cj|] eqn:Ej; [|done].
    apply chunk_section_lookup_index in Ei as (_ & _ & _ & _ & Hi).
    apply chunk_section_lookup_index in Ej as (_ & _ & _ & _ & Hj).
    simpl. intros [= <-] [= Heq]. rewrite Hi, Hj in Heq.
    apply app_inv_head, app_inv_head in Heq. by apply str_of_nat_inj.
Qed.

(** X9.  [chunk_section] returns no chunk at all exactly when the content of
    the section has 100 characters or more, all of them blanks; in every
    other case it returns at least one chunk. *)
Theorem chunk_section_empty_iff self section :
  chunk_section self section = []
  <-> 100 <= length (content section) /\ has_ink (content section) = false.
Proof.
  split.
  - intros Hnil. destruct (decide (length (content section) < 100)) as [Hs|Hl].
    + by rewrite chunk_section_short in Hnil.
    + split; [lia|]. destruct (has_ink (content section)) eqn:Hink; [|done].
      by apply (chunk_section_nonempty self) in Hink.
  - intros [Hlen Hno]. rewrite chunk_section_long by done. cbv zeta.
    rewrite split_into_sentences_blank by done.
    unfold chunk_loop, chunk_step. cbn [fold_left current_chunk_text nonempty].
    rewrite andb_false_r. cbn [current_chunk_text chunks].
    assert (Hstrip : strip ([] ++ lit " " ++ content section) = []).
    { apply strip_nil_iff. by rewrite !has_ink_app, Hno. }
    by rewrite Hstrip.
Qed.

(** X10.  What [_get_overlap_text] returns is always a suffix of the text
    it is given; when the number of overlap characters is positive, it has
    at most that many characters. *)
Theorem overlap_text_is_bounded_suffix (text : str) (overlap_chars : Z) :
  _get_overlap_text text overlap_chars `suffix_of` text
  /\ ((0 < overlap_chars)%Z ->
      (Z.of_nat (length (_get_overlap_text text overlap_chars))
       <= overlap_chars)%Z).
Proof.
  split; [apply get_overlap_text_suffix|].
  intros Hpos. unfold _get_overlap_text.
  destruct (Z.leb_spec (Z.of_nat (length text)) overlap_chars); [done|].
  assert (Hslice : length (py_slice_from (- overlap_chars) text)
                   = Z.to_nat overlap_chars).
  { unfold py_slice_from. destruct (Z.ltb_spec (- overlap_chars) 0); [|lia].
    rewrite length_drop. lia. }
  destruct (after_sentence_start _) as [rest|] eqn:E; [|lia].
  apply after_sentence_start_suffix, suffix_length in E. lia.
Qed.

Lemma overlap_text_is_bounded_suffix_witness :
  (Z.of_nat (length (_get_overlap_text
                       (lit " Prima frase di prova numero uno.") 20))
   <= 20)%Z.
Proof.
  apply (proj2 (overlap_text_is_bounded_suffix
                  (lit " Prima frase di prova numero uno.") 20)).
  reflexivity.
Defined.

(** X11.  The pieces and separators that the split of
    [_split_into_sentences] returns, joined back, give the text: no
    character is lost or added; and their number is odd, so the test
    [len(sentences) % 2 == 1] always holds. *)
Theorem re_split_round_trip (text : str) :
  concat (re_split [] 0 text) = text
  /\ Nat.odd (length (re_split [] 0 text)) = true.
Proof. split; [by rewrite re_split_concat | apply re_split_odd]. Qed.

(** X12.  [_split_into_sentences] never returns an empty list, and the
    sentences hold, in order, exactly the characters of the text that are
    not blanks; when the text is not blank, every sentence is non-empty with
    no blank at either end. *)
Theorem sentences_keep_all_ink (text : str) :
  _split_into_sentences text <> []
  /\ ink_of (concat (_split_into_sentences text)) = ink_of text
  /\ (has_ink text = true ->
      Forall is_trimmed_text (_split_into_sentences text)).
Proof.
  destruct (split_into_sentences_result text) as (result & Htrim & Hink & ->).
  destruct result as [|x l].
  - split; [done|]. split; [by simpl; rewrite app_nil_r|].
    intros Hi. simpl in Hink. symmetry in Hink.
    apply ink_of_nil_iff in Hink. congruence.
  - done.
Qed.

Lemma sentences_keep_all_ink_witness :
  Forall is_trimmed_text (_split_into_sentences four_sentences).
Proof.
  apply (proj2 (proj2 (sentences_keep_all_ink four_sentences))).
  reflexivity.
Defined.

(** ** The stages of [process_document] *)

Lemma chunk_section_trimmed self section c :
  is_trimmed_text (content section) ->
  c ∈ chunk_section self section -> is_trimmed_text (chunk_content c).
Proof.
  intros Hsec Hc.
  destruct (decide (length (content section) < 100)) as [Hshort|Hlong].
  - rewrite chunk_section_short in Hc by done.
    by apply list_elem_of_singleton in Hc as ->.
  - rewrite chunk_section_long in Hc by lia. cbv zeta in Hc.
    pose proof (chunk_loop_chunks_trimmed self section (content section)) as Hall.
    rewrite Forall_forall in Hall.
    destruct (strip (current_chunk_text _)) as [|a r] eqn:E; [by apply Hall|].
    apply elem_of_app in Hc as [Hc|Hc]; [by apply Hall|].
    apply list_elem_of_singleton in Hc as ->. cbn [chunk_content _create_chunk].
    rewrite <- E. apply strip_trimmed, strip_nonempty_iff. by rewrite E.
Qed.

Lemma extract_sections_trimmed document toc s :
  s ∈ extract_sections document toc -> is_trimmed_text (content s).
Proof.
  intros Hs. destruct (extract_sections_made _ _ _ Hs) as (r & Hr & Heq).
  destruct (made_from_content _ _ _ Hr) as [Htrim _].
  assert (Hc : content s = content r) by (by rewrite Heq).
  by rewrite Hc.
Qed.

Lemma extract_sections_document_id document toc s :
  s ∈ extract_sections document toc ->
  documentId s = doc_documentId document.
Proof.
  intros Hs. destruct (extract_sections_made _ _ _ Hs) as (r & Hr & Heq).
  destruct Hr as (n & header & cl & ty & pg & -> & _).
  by rewrite Heq.
Qed.

Lemma extract_sections_NoDup document toc :
  NoDup (extract_sections document toc).
Proof.
  apply (NoDup_fmap_1 sectionId), extract_sections_ids_NoDup.
Qed.

Lemma bind_length_ge {A B} (f : A -> list B) (l : list A) :
  (forall x, x ∈ l -> f x <> []) -> length l <= length (l ≫= f).
Proof.
  induction l as [|x l IH]; intros Hf; [done|].
  rewrite bind_cons, length_app. simpl.
  assert (Hx : f x <> []) by (apply Hf; by left).
  assert (Hl : length l <= length (l ≫= f))
    by (apply IH; intros y Hy; apply Hf; by right).
  destruct (f x); [done|]. simpl. lia.
Qed.

(** X13.  Every chunk produced by [process_document] belongs to a section of
    the list it returns: it carries the identifier and the page of that
    section, and the identifier of the document. *)
Theorem pipeline_chunks_reference_sections chunker document doc c
    (Hc : c ∈ Pipeline.all_chunks
                (Pipeline.process_document chunker document doc)) :
  exists s,
    s ∈ Pipeline.doc_sections (Pipeline.process_document chunker document doc)
    /\ c ∈ chunk_section chunker s
    /\ chunk_sectionId c = sectionId s
    /\ chunk_documentId c = doc_documentId document
    /\ chunk_pageNumber c = pageNumber s.
Proof.
  unfold Pipeline.process_document in *. cbn in *.
  apply list_elem_of_bind in Hc as (s & Hc & Hs).
  exists s. split; [done|]. split; [done|].
  pose proof (extract_sections_document_id _ _ _ Hs) as Hdoc.
  apply list_elem_of_lookup in Hc as [i Hi].
  apply chunk_section_lookup_index in Hi as (_ & ? & ? & ? & _).
  split; [done|]. split; [congruence | done].
Qed.

Lemma pipeline_chunks_reference_sections_witness :
  exists s,
    s ∈ Pipeline.doc_sections
          (Pipeline.process_document default_chunker doc_two_headings [])
    /\ _create_chunk section_oggetto 0 (lit "testo") 1
         ∈ chunk_section default_chunker s
    /\ chunk_sectionId (_create_chunk section_oggetto 0 (lit "testo") 1)
       = sectionId s
    /\ chunk_documentId (_create_chunk section_oggetto 0 (lit "testo") 1)
       = doc_documentId doc_two_headings
    /\ chunk_pageNumber (_create_chunk section_oggetto 0 (lit "testo") 1)
       = pageNumber s.
Proof.
  apply (pipeline_chunks_reference_sections default_chunker
           doc_two_headings []).
  vm_compute. constructor.
Defined.

(** X14.  The identifiers of all the chunks that [process_document]
    produces for a document are pairwise distinct. *)
Theorem pipeline_chunk_ids_distinct chunker document doc :
  NoDup (chunkId <$> Pipeline.all_chunks
                       (Pipeline.process_document chunker document doc)).
Proof.
  unfold Pipeline.process_document. cbn.
  set (secs := extract_sections document (extract_toc document doc)).
  assert (Hown : forall s c, s ∈ secs -> c ∈ chunk_section chunker s ->
            exists i k, chunk_section chunker s !! k = Some c
              /\ chunk_sectionId c = sectionId s
              /\ chunkId c = section_id (doc_documentId document) i
                               ++ lit "_CHK_" ++ str_of_nat k).
  { intros s c Hs [k Hk]%list_elem_of_lookup.
    destruct (extract_sections_section_id _ _ _ Hs) as [i Hi].
    exists i, k. split; [done|].
    apply chunk_section_lookup_index in Hk as (_ & ? & _ & _ & Hid).
    split; [done|]. by rewrite Hid, Hi. }
  apply NoDup_fmap_2_strong.
  - intros c1 c2 (s1 & Hc1 & Hs1)%list_elem_of_bind
                 (s2 & Hc2 & Hs2)%list_elem_of_bind Heq.
    destruct (Hown _ _ Hs1 Hc1) as (i1 & k1 & Hk1 & Hsid1 & Hid1).
    destruct (Hown _ _ Hs2 Hc2) as (i2 & k2 & Hk2 & Hsid2 & Hid2).
    rewrite Hid1, Hid2 in Heq. apply chunk_id_inj in Heq as [-> ->].
    assert (s1 = s2) as ->.
    { apply (extract_sections_same_id document (extract_toc document doc));
        [done | done |].
      destruct (extract_sections_section_id _ _ _ Hs1) as [j1 Hj1].
      destruct (extract_sections_section_id _ _ _ Hs2) as [j2 Hj2].
      apply chunk_section_lookup_index in Hk1 as (_ & _ & _ & _ & E1).
      apply chunk_section_lookup_index in Hk2 as (_ & _ & _ & _ & E2).
      rewrite E1, Hj1 in Hid1. rewrite E2, Hj2 in Hid2.
      apply chunk_id_inj in Hid1 as [-> _].
      apply chunk_id_inj in Hid2 as [-> _]. congruence. }
    congruence.
  - apply NoDup_bind.
    + intros s1 s2 c Hs1 Hs2 Hc1 Hc2.
      destruct (Hown _ _ Hs1 Hc1) as (_ & _ & _ & Hsid1 & _).
      destruct (Hown _ _ Hs2 Hc2) as (_ & _ & _ & Hsid2 & _).
      apply (extract_sections_same_id document (extract_toc document doc));
        [done | done | congruence].
    + intros s _. apply chunk_section_NoDup.
    + apply extract_sections_NoDup.
Qed.

(** X15.  In the output of [process_document] every chunk has a content
    that is non-empty with no blank at either end, and every section has at
    least one chunk, so there are at least as many chunks as sections. *)
Theorem pipeline_chunks_trimmed chunker document doc :
  Forall (fun c => is_trimmed_text (chunk_content c))
    (Pipeline.all_chunks (Pipeline.process_document chunker document doc))
  /\ Forall (fun s => chunk_section chunker s <> [])
       (Pipeline.doc_sections (Pipeline.process_document chunker document doc))
  /\ length (Pipeline.doc_sections
               (Pipeline.process_document chunker document doc))
     <= length (Pipeline.all_chunks
                  (Pipeline.process_document chunker document doc)).
Proof.
  unfold Pipeline.process_document. cbn.
  set (secs := extract_sections document (extract_toc document doc)).
  assert (Hne : forall s, s ∈ secs -> chunk_section chunker s <> []).
  { intros s Hs. apply chunk_section_nonempty, trimmed_has_ink.
    by apply (extract_sections_trimmed document (extract_toc document doc)). }
  split; [|split].
  - apply Forall_forall. intros c (s & Hc & Hs)%list_elem_of_bind.
    apply (chunk_section_trimmed chunker s); [|done].
    by apply (extract_sections_trimmed document (extract_toc document doc)).
  - by apply Forall_forall.
  - by apply bind_length_ge.
Qed.

(** ** Further properties of [extract_toc] *)

Lemma str_eqb_eq (a b : str) : str_eqb a b = true -> a = b.
Proof.
  revert b. induction a as [|x a IH]; intros [|y b]; try done.
  simpl. intros [Hxy Hab]%andb_true_iff.
  apply Ascii.eqb_eq in Hxy as ->. by rewrite (IH b).
Qed.

Lemma nth_error_lookup {A} (l : list A) (i : nat) : nth_error l i = l !! i.
Proof. revert i. induction l as [|x l IH]; intros [|i]; simpl; auto. Qed.

Lemma toc_raw_text_pages (doc : list str) (count : nat) : forall page_num,
  toc_raw_text doc page_num count
    = concat ((fun t => t ++ newline) <$> take count (drop page_num doc)).
Proof.
  induction count as [|count IH]; intros p; [done|].
  cbn [toc_raw_text]. rewrite IH, nth_error_lookup.
  destruct (Nat.ltb_spec p (length doc)) as [Hlt|Hge].
  - destruct (lookup_lt_is_Some_2 doc p Hlt) as [t Ht].
    rewrite Ht, (drop_S _ _ _ Ht). done.
  - rewrite !drop_ge by lia. by rewrite !take_nil.
Qed.

Lemma validated_checked doc candidate check e :
  validated doc candidate check = Some e ->
  exists t, page_text doc e = Some t /\ check t = true.
Proof.
  unfold validated. destruct candidate as [ds|]; [|done].
  destruct (_ <=? _)%Z; [|done].
  destruct (page_text doc (int_of_digits ds - 1)) as [t|] eqn:E; [|done].
  destruct (check t) eqn:Ec; [|done]. intros [= <-]. eauto.
Qed.

(** What [extract_toc] does between the two pages guards and the record it
    returns. *)
Lemma extract_toc_unfold document doc toc :
  extract_toc document doc = Some toc ->
  exists page_2_text e method,
    doc_type document = lit "Circolare"
    /\ 2 <= length doc
    /\ doc !! 1 = Some page_2_text
    /\ ((validated doc (search_digits premessa_pattern page_2_text)
           (fun t => contains (lit "PREMESSA") (py_prefix 500 (py_upper t)))
         = Some e /\ method = lit "PREMESSA")
        \/ (validated doc (search_digits premessa_pattern page_2_text)
              (fun t => contains (lit "PREMESSA") (py_prefix 500 (py_upper t)))
            = None
            /\ validated doc (search_digits first_section_pattern page_2_text)
                 (fun t => contains (lit "1.1") (py_prefix 200 t))
               = Some e
            /\ method = lit "FIRST_SECTION"))
    /\ toc = {| tocId := doc_documentId document ++ lit "_TOC";
                toc_documentId := doc_documentId document;
                rawText := strip (toc_raw_text doc 1 (Z.to_nat (e - 1)));
                startPage := 2;
                endPage := e;
                hasHeader :=
                  match search_toc_header true page_2_text with
                  | Some _ => true
                  | None => false
                  end;
                headerText := py_upper <$> search_toc_header true page_2_text;
                entryCount :=
                  count_entries true 0 (toc_raw_text doc 1 (Z.to_nat (e - 1)));
                detectionMethod := Some method |}.
Proof.
  unfold extract_toc.
  destruct (str_eqb (doc_type document) (lit "Circolare")) eqn:Et; [|done].
  apply str_eqb_eq in Et. cbn [negb].
  destruct (Nat.ltb_spec (length doc) 2); [done|].
  rewrite nth_error_lookup.
  destruct (doc !! 1) as [page_2_text|]; [|done].
  destruct (validated doc (search_digits premessa_pattern page_2_text) _)
    as [e|] eqn:E1.
  - intros [= <-]. exists page_2_text, e, (lit "PREMESSA").
    repeat (split; [done|]). split; [by left | done].
  - destruct (validated doc (search_digits first_section_pattern page_2_text) _)
      as [e|] eqn:E2; [|done].
    intros [= <-]. exists page_2_text, e, (lit "FIRST_SECTION").
    repeat (split; [done|]). split; [by right | done].
Qed.

(** X16.  [extract_toc] returns a table of contents only for a document of
    type [Circolare] with at least 2 pages.  Its first page is always 2, its
    last page lies between -1 and the number of pages minus 1, its
    identifier is the identifier of the document followed by [_TOC], its
    method is [PREMESSA] or [FIRST_SECTION], and it has a header exactly
    when it has a header text. *)
Theorem extract_toc_result document doc toc
    (Htoc : extract_toc document doc = Some toc) :
  doc_type document = lit "Circolare"
  /\ 2 <= length doc
  /\ startPage toc = 2%Z
  /\ (-1 <= endPage toc <= Z.of_nat (length doc) - 1)%Z
  /\ tocId toc = doc_documentId document ++ lit "_TOC"
  /\ toc_documentId toc = doc_documentId document
  /\ (detectionMethod toc = Some (lit "PREMESSA")
      \/ detectionMethod toc = Some (lit "FIRST_SECTION"))
  /\ (hasHeader toc = true <-> headerText toc <> None).
Proof.
  apply extract_toc_unfold in Htoc
    as (p2 & e & method & Hty & Hlen & _ & Hm & ->).
  cbn. split; [done|]. split; [done|]. split; [done|].
  split.
  { destruct Hm as [[Hv _]|(_ & Hv & _)]; apply validated_range in Hv; lia. }
  split; [done|]. split; [done|]. split.
  { destruct Hm as [[_ ->]|(_ & _ & ->)]; auto. }
  by destruct (search_toc_header true p2).
Qed.

Lemma extract_toc_result_witness :
  doc_type (circolare 2) = lit "Circolare"
  /\ 2 <= length [lit "copertina"; lit "PREMESSA . 2"]
  /\ startPage toc_empty_range = 2%Z
  /\ (-1 <= endPage toc_empty_range
      <= Z.of_nat (length [lit "copertina"; lit "PREMESSA . 2"]) - 1)%Z
  /\ tocId toc_empty_range = doc_documentId (circolare 2) ++ lit "_TOC"
  /\ toc_documentId toc_empty_range = doc_documentId (circolare 2)
  /\ (detectionMethod toc_empty_range = Some (lit "PREMESSA")
      \/ detectionMethod toc_empty_range = Some (lit "FIRST_SECTION"))
  /\ (hasHeader toc_empty_range = true <-> headerText toc_empty_range <> None).
Proof.
  apply (extract_toc_result (circolare 2)
           [lit "copertina"; lit "PREMESSA . 2"] toc_empty_range).
  reflexivity.
Defined.

(** X17.  A table of contents is returned only after validation: the page
    that follows its last page holds the marker near its top, [PREMESSA] in
    the first 500 characters of its upper-cased text for the method
    [PREMESSA], [1.1] in its first 200 characters for the method
    [FIRST_SECTION]; and the second method is used only when the first one
    gave nothing. *)
Theorem extract_toc_boundary_is_validated document doc toc
    (Htoc : extract_toc document doc = Some toc) :
  exists actual_text page_2_text,
    page_text doc (endPage toc) = Some actual_text
    /\ doc !! 1 = Some page_2_text
    /\ ((detectionMethod toc = Some (lit "PREMESSA")
         /\ contains (lit "PREMESSA") (py_prefix 500 (py_upper actual_text))
            = true)
        \/ (detectionMethod toc = Some (lit "FIRST_SECTION")
            /\ contains (lit "1.1") (py_prefix 200 actual_text) = true
            /\ validated doc (search_digits premessa_pattern page_2_text)
                 (fun t => contains (lit "PREMESSA")
                             (py_prefix 500 (py_upper t)))
               = None)).
Proof.
  apply extract_toc_unfold in Htoc
    as (p2 & e & method & _ & _ & Hp2 & Hm & ->). cbn.
  destruct Hm as [[Hv ->]|(Hnone & Hv & ->)];
    apply validated_checked in Hv as (t & Ht & Hc); exists t, p2; eauto 10.
Qed.

Lemma extract_toc_boundary_is_validated_witness :
  exists actual_text page_2_text,
    page_text [lit "copertina"; lit "PREMESSA . 2"] (endPage toc_empty_range)
      = Some actual_text
    /\ [lit "copertina"; lit "PREMESSA . 2"] !! 1 = Some page_2_text
    /\ ((detectionMethod toc_empty_range = Some (lit "PREMESSA")
         /\ contains (lit "PREMESSA") (py_prefix 500 (py_upper actual_text))
            = true)
        \/ (detectionMethod toc_empty_range = Some (lit "FIRST_SECTION")
            /\ contains (lit "1.1") (py_prefix 200 actual_text) = true
            /\ validated [lit "copertina"; lit "PREMESSA . 2"]
                 (search_digits premessa_pattern page_2_text)
                 (fun t => contains (lit "PREMESSA")
                             (py_prefix 500 (py_upper t)))
               = None)).
Proof.
  apply (extract_toc_boundary_is_validated (circolare 2)
           [lit "copertina"; lit "PREMESSA . 2"] toc_empty_range).
  reflexivity.
Defined.

(** X18.  The raw text of the table of contents is the stripped
    concatenation of the texts of the pages from its first page to its last
    page, each followed by a newline; its number of entries is counted on
    that concatenation.  When the last page is below 2 both are empty. *)
Theorem extract_toc_raw_text_pages document doc toc
    (Htoc : extract_toc document doc = Some toc) :
  let pages := take (Z.to_nat (endPage toc - 1)) (drop 1 doc) in
  let raw := concat ((fun t => t ++ newline) <$> pages) in
  rawText toc = strip raw
  /\ entryCount toc = count_entries true 0 raw
  /\ length pages = Z.to_nat (endPage toc - 1)
  /\ ((endPage toc < 2)%Z -> rawText toc = [] /\ entryCount toc = 0).
Proof.
  apply extract_toc_unfold in Htoc
    as (p2 & e & method & _ & Hlen & _ & Hm & ->). cbn.
  rewrite toc_raw_text_pages. split; [done|]. split; [done|]. split.
  - assert (e <= Z.of_nat (length doc) - 1)%Z
      by (destruct Hm as [[Hv _]|(_ & Hv & _)];
          apply validated_range in Hv; lia).
    rewrite length_take, length_drop. lia.
  - intros Hlt. replace (Z.to_nat (e - 1)) with 0 by lia. done.
Qed.

Lemma extract_toc_raw_text_pages_witness :
  let pages := take (Z.to_nat (endPage toc_empty_range - 1))
                 (drop 1 [lit "copertina"; lit "PREMESSA . 2"]) in
  let raw := concat ((fun t => t ++ newline) <$> pages) in
  rawText toc_empty_range = strip raw
  /\ entryCount toc_empty_range = count_entries true 0 raw
  /\ length pages = Z.to_nat (endPage toc_empty_range - 1)
  /\ ((endPage toc_empty_range < 2)%Z ->
      rawText toc_empty_range = [] /\ entryCount toc_empty_range = 0).
Proof.
  apply (extract_toc_raw_text_pages (circolare 2)
           [lit "copertina"; lit "PREMESSA . 2"] toc_empty_range).
  reflexivity.
Defined.

(** ** No sentence is lost by the chunker *)

Lemma drop_while_app_ink (L t : str) :
  starts_with_space t = false -> t <> [] ->
  drop_while is_space (L ++ t) = drop_while is_space L ++ t.
Proof.
  intros Ht Hne. induction L as [|x L IH].
  - destruct t as [|c t]; [done|]. simpl in *. by rewrite Ht.
  - simpl. destruct (is_space x); [apply IH | done].
Qed.

Lemma rev_nonempty (s : str) : s <> [] -> rev s <> [].
Proof.
  intros Hne H. apply (f_equal (@length ascii)) in H.
  rewrite length_rev in H. by destruct s.
Qed.

(** Stripping a text around a part that is itself trimmed keeps that part
    whole. *)
Lemma strip_around_trimmed (L t R : str) :
  is_trimmed_text t ->
  strip (L ++ t ++ R) = lstrip L ++ t ++ rstrip R.
Proof.
  intros (Hne & Hs & He). unfold strip.
  assert (Hr : rstrip (L ++ t ++ R) = L ++ t ++ rstrip R).
  { unfold rstrip. rewrite !rev_app_distr, <- app_assoc.
    rewrite (drop_while_app_ink (rev R) (rev t ++ rev L)).
    - by rewrite !rev_app_distr, !rev_involutive, <- app_assoc.
    - unfold ends_with_space in He. pose proof (rev_nonempty t Hne).
      by destruct (rev t).
    - pose proof (rev_nonempty t Hne). by destruct (rev t). }
  rewrite Hr. unfold lstrip. apply drop_while_app_ink.
  - by destruct t.
  - by destruct t.
Qed.

Lemma flushed_buffers_hold_sentences self sentences : forall text s,
  s ∈ sentences ->
  exists b l r, b ∈ flushed_buffers self text sentences /\ b = l ++ s ++ r.
Proof.
  induction sentences as [|x rest IH]; intros text s Hs; [by inversion Hs|].
  assert (Hhere : forall t,
            exists b l r, b ∈ flushed_buffers self (t ++ lit " " ++ x) rest
                          /\ b = l ++ x ++ r).
  { intros t.
    destruct (flushed_buffers_head self rest (t ++ lit " " ++ x))
      as (tail & buffers & ->).
    exists ((t ++ lit " " ++ x) ++ tail), (t ++ lit " "), tail.
    split; [by left|]. by rewrite <- !app_assoc. }
  cbn [flushed_buffers]. apply elem_of_cons in Hs as [->|Hs].
  - destruct (_ && _)%bool.
    + destruct (Hhere (_get_overlap_text text (overlap self * chars_per_token)))
        as (b & l & r & Hb & Hbl).
      exists b, l, r. split; [by right | done].
    + apply Hhere.
  - destruct (_ && _)%bool.
    + destruct (IH (_get_overlap_text text (overlap self * chars_per_token)
                      ++ lit " " ++ x) s Hs) as (b & l & r & Hb & Hbl).
      exists b, l, r. split; [by right | done].
    + by apply IH.
Qed.

Lemma flushed_buffers_nonempty self sentences text :
  flushed_buffers self text sentences <> [].
Proof.
  destruct (flushed_buffers_head self sentences text) as (tail & buffers & ->).
  done.
Qed.

(** X20.  For a section whose content has 100 characters or more and is not
    blank, every sentence of [_split_into_sentences] stands whole in the
    content of at least one chunk: chunking drops no sentence. *)
Theorem every_sentence_is_in_a_chunk self section sentence
    (Hlen : 100 <= length (content section))
    (Hink : has_ink (content section) = true)
    (Hs : sentence ∈ _split_into_sentences (content section)) :
  exists c l r,
    c ∈ chunk_section self section
    /\ chunk_content c = l ++ sentence ++ r.
Proof.
  assert (Htrim : is_trimmed_text sentence).
  { destruct (split_into_sentences_result (content section))
      as (result & Htrim & Hk & Heq).
    rewrite Heq in Hs. destruct result as [|x l].
    - simpl in Hk. symmetry in Hk. apply ink_of_nil_iff in Hk. congruence.
    - rewrite Forall_forall in Htrim. by apply Htrim. }
  destruct (flushed_buffers_hold_sentences self _ [] sentence Hs)
    as (b & l & r & Hb & Hbl).
  assert (Hbink : has_ink b = true).
  { rewrite Hbl, !has_ink_app, (trimmed_has_ink _ Htrim).
    by rewrite orb_true_r. }
  assert (Hin : strip b ∈ chunk_content <$> chunk_section self section).
  { rewrite chunk_section_buffers by done. cbv zeta.
    rewrite (app_removelast_last []
               (flushed_buffers_nonempty self
                  (_split_into_sentences (content section)) [])) in Hb.
    apply elem_of_app in Hb as [Hb|Hb].
    - apply elem_of_app. left. by apply list_elem_of_fmap_2.
    - apply list_elem_of_singleton in Hb as ->.
      apply elem_of_app. right.
      apply strip_nonempty_iff in Hbink.
      destruct (strip _); [done | by left]. }
  apply list_elem_of_fmap in Hin as (c & Hc & Hcin).
  exists c, (lstrip l), (rstrip r). split; [done|].
  by rewrite <- Hc, Hbl, strip_around_trimmed.
Qed.

Lemma every_sentence_is_in_a_chunk_witness :
  exists c l r,
    c ∈ chunk_section {| chunk_size := 10; overlap := 5 |}
          (sample_section four_sentences)
    /\ chunk_content c = l ++ lit "Terza frase di prova numero tre." ++ r.
Proof.
  apply (every_sentence_is_in_a_chunk {| chunk_size := 10; overlap := 5 |}
           (sample_section four_sentences)).
  - vm_compute. lia.
  - reflexivity.
  - vm_compute. apply list_elem_of_In. right. right. left. reflexivity.
Defined.

(** ** The identifier and the title of a document *)


Lemma digits_tag_inj (ds ds' : str) (c : ascii) (x y : str) :
  Forall (fun c => is_digit c = true) ds ->
  Forall (fun c => is_digit c = true) ds' ->
  is_digit c = false ->
  ds ++ c :: x = ds' ++ c :: y -> ds = ds' /\ x = y.
Proof.
  intros Hds Hds' Hc H.
  assert (Heq : ds = ds').
  { rewrite <- (take_while_digits_app ds c x),
            <- (take_while_digits_app ds' c y) by done.
    by rewrite H. }
  rewrite Heq in H. apply app_inv_head in H. by injection H as ->.
Qed.

Lemma Forall_rev_digits (ds : str) :
  Forall (fun c => is_digit c = true) ds ->
  Forall (fun c => is_digit c = true) (rev ds).
Proof. intros H. by apply Forall_rev. Qed.

Lemma number_year_inj (cn cn' : str) (y y' : nat) :
  cn ++ lit "_" ++ str_of_nat y = cn' ++ lit "_" ++ str_of_nat y' ->
  cn = cn' /\ y = y'.
Proof.
  intros H. apply (f_equal (@rev ascii)) in H.
  rewrite !rev_app_distr in H. cbn [lit list_ascii_of_string rev app] in H.
  rewrite <- !app_assoc in H. cbn [app] in H.
  apply digits_tag_inj in H as [Hy Hc];
    [| apply Forall_rev_digits, str_of_nat_digits
     | apply Forall_rev_digits, str_of_nat_digits | done].
  apply (f_equal (@rev ascii)) in Hy, Hc. rewrite !rev_involutive in Hy, Hc.
  split; [done | by apply str_of_nat_inj].
Qed.

(** X21.  For one document type, [_create_document_id] gives two documents
    the same identifier exactly when they have the same year and the same
    number once its non-word characters are replaced by underscores; and a
    [Risoluzione] never shares its identifier with a [Risposta]. *)
Theorem document_id_determines_number_and_year
    (doc_type number number' : str) (year year' : nat) :
  (_create_document_id doc_type number year
     = _create_document_id doc_type number' year'
   <-> clean_number number = clean_number number' /\ year = year')
  /\ forall doc_type',
       py_lower doc_type = lit "risoluzione" ->
       py_lower doc_type' = lit "risposta" ->
       _create_document_id doc_type number year
         <> _create_document_id doc_type' number' year'.
Proof.
  split.
  - unfold _create_document_id. split.
    + intros H. apply app_inv_head, app_inv_head in H.
      by apply number_year_inj.
    + by intros [-> ->].
  - intros ty' H1 H2. unfold _create_document_id, doc_type_short.
    rewrite H1, H2. cbn [str_eqb]. vm_compute str_eqb.
    intros H. discriminate H.
Qed.

Lemma document_id_determines_number_and_year_witness :
  _create_document_id (lit "Risoluzione") (lit "52/E") 2024
    <> _create_document_id (lit "RISPOSTA") (lit "52/E") 2024.
Proof.
  apply (proj2 (document_id_determines_number_and_year
                  (lit "Risoluzione") (lit "52/E") (lit "52/E") 2024 2024)).
  - reflexivity.
  - reflexivity.
Defined.

Lemma collapse_spaces_plain (s : str) : forall b,
  only_plain_spaces (collapse_spaces b s).
Proof.
  induction s as [|c s IH]; intros b; [constructor|].
  cbn [collapse_spaces]. destruct (is_space c) eqn:E.
  - destruct b; [apply IH|]. constructor; [done | apply IH].
  - constructor; [|apply IH]. congruence.
Qed.

Lemma collapse_spaces_after_run (s : str) :
  starts_with_space (collapse_spaces true s) = false.
Proof.
  induction s as [|c s IH]; [done|].
  cbn [collapse_spaces]. destruct (is_space c) eqn:E; [done|]. by simpl.
Qed.

Lemma no_double_space_cons (c : ascii) (s : str) :
  (is_space c = true -> starts_with_space s = false) ->
  no_double_space s = true -> no_double_space (c :: s) = true.
Proof.
  intros Hc Hs. destruct s as [|d s]; [done|].
  change (negb (is_space c && is_space d) && no_double_space (d :: s) = true).
  rewrite Hs, andb_true_r.
  destruct (is_space c); [|done]. simpl in Hc. by rewrite Hc.
Qed.

Lemma collapse_spaces_no_double (s : str) : forall b,
  no_double_space (collapse_spaces b s) = true.
Proof.
  induction s as [|c s IH]; intros b; [done|].
  cbn [collapse_spaces]. destruct (is_space c) eqn:E.
  - destruct b; [apply IH|].
    apply no_double_space_cons; [|apply IH].
    intros _. apply collapse_spaces_after_run.
  - apply no_double_space_cons; [|apply IH]. congruence.
Qed.

Lemma no_double_space_tail (c : ascii) (s : str) :
  no_double_space (c :: s) = true ->
  no_double_space s = true
  /\ (is_space c = true -> starts_with_space s = false).
Proof.
  destruct s as [|d s]; [done|].
  change (negb (is_space c && is_space d) && no_double_space (d :: s) = true
          -> no_double_space (d :: s) = true
             /\ (is_space c = true -> is_space d = false)).
  intros [H1 H2]%andb_true_iff. split; [done|].
  intros Hc. rewrite Hc in H1. by destruct (is_space d).
Qed.

Lemma no_double_space_take (s : str) : forall n,
  no_double_space s = true -> no_double_space (take n s) = true.
Proof.
  induction s as [|c s IH]; intros n H; [by destruct n|].
  destruct n as [|n]; [done|]. cbn [take].
  apply no_double_space_tail in H as [Hs Hc].
  apply no_double_space_cons; [|by apply IH].
  intros Hsp. specialize (Hc Hsp).
  destruct s as [|d s]; [by destruct n|]. by destruct n.
Qed.

(** X22.  The title that [_extract_title] returns is the file name, or a
    text that is not empty, has at most 200 characters, starts with no
    blank, and in which every blank is a single plain space.  It is the
    file name when none of the first 20 lines, stripped, has more than 10
    characters without being all digits. *)
Theorem extracted_title_is_normalised (content filename : str) :
  (_extract_title content filename = filename
   \/ (_extract_title content filename <> []
       /\ length (_extract_title content filename) <= 200
       /\ starts_with_space (_extract_title content filename) = false
       /\ only_plain_spaces (_extract_title content filename)
       /\ no_double_space (_extract_title content filename) = true))
  /\ (Forall (fun line => length (strip line) <= 10
                          \/ py_isdigit (strip line) = true)
        (take 20 (split_on is_newline content)) ->
      _extract_title content filename = filename).
Proof.
  unfold _extract_title.
  generalize (take 20 (split_on is_newline content)). intros lines.
  split.
  - induction lines as [|line rest IH]; [by left|].
    cbn [first_substantial_line].
    destruct (_ && _)%bool eqn:E; [|done]. right.
    apply andb_true_iff in E as [Hlen _]. apply Nat.ltb_lt in Hlen.
    pose proof (strip_starts line) as Hst.
    destruct (strip line) as [|c t] eqn:Es; [simpl in Hlen; lia|].
    simpl in Hst. unfold py_prefix. cbn [collapse_spaces]. rewrite Hst.
    cbn [take]. split; [done|]. split; [|split; [by simpl|split]].
    + rewrite <- (firstn_cons 199). rewrite length_take. lia.
    + apply Forall_cons. split; [congruence|].
      apply Forall_take, collapse_spaces_plain.
    + rewrite <- (firstn_cons 199). apply no_double_space_take.
      apply no_double_space_cons; [congruence|apply collapse_spaces_no_double].
  - induction 1 as [|line rest Hline _ IH]; [done|].
    cbn [first_substantial_line].
    destruct Hline as [Hshort|Hdig].
    + destruct (Nat.ltb_spec 10 (length (strip line))); [lia | done].
    + by rewrite Hdig, andb_false_r.
Qed.

Lemma extracted_title_is_normalised_witness :
  _extract_title (lit "2024
pag. 1") (lit "circolare.pdf") = lit "circolare.pdf".
Proof.
  apply (proj2 (extracted_title_is_normalised (lit "2024
pag. 1") (lit "circolare.pdf"))).
  repeat constructor.
Defined.

(** ** The links between consecutive sections *)


Lemma sorted_by_order_increasing (l : list Section) : forall k,
  order <$> l = seq k (length l) -> sorted_by_order l = l.
Proof.
  induction l as [|a l IH]; intros k H; [done|].
  cbn [length seq fmap list_fmap] in H. injection H as Ha Hl.
  unfold sorted_by_order in *. cbn [foldr]. rewrite (IH (S k) Hl).
  destruct l as [|b l]; [done|].
  cbn [length seq fmap list_fmap] in Hl. injection Hl as Hb _.
  cbn [insert_by_order].
  destruct (Nat.leb_spec (order a) (order b)); [done | lia].
Qed.

Lemma link_consecutive_cons (k : nat) (x y : Section) (l : list Section) :
  link_consecutive k (x :: y :: l)
    = {| currentId := sectionId x; nextId := sectionId y; link_order := k |}
      :: link_consecutive (S k) (y :: l).
Proof. done. Qed.

Lemma link_consecutive_lookup (l : list Section) : forall k i a b,
  l !! i = Some a -> l !! S i = Some b ->
  link_consecutive k l !! i
    = Some {| currentId := sectionId a; nextId := sectionId b;
              link_order := k + i |}.
Proof.
  induction l as [|x l IH]; intros k i a b Hi Hj; [done|].
  destruct l as [|y l]; [done|].
  rewrite link_consecutive_cons. destruct i as [|i].
  - injection Hi as <-. injection Hj as <-.
    cbn [lookup list_lookup]. by rewrite Nat.add_0_r.
  - change (link_consecutive (S k) (y :: l) !! i
            = Some {| currentId := sectionId a; nextId := sectionId b;
                      link_order := k + S i |}).
    rewrite (IH (S k) i a b Hi Hj). do 2 f_equal. lia.
Qed.

Lemma link_consecutive_length (l : list Section) : forall k,
  length (link_consecutive k l) = length l - 1.
Proof.
  induction l as [|x l IH]; intros k; [done|].
  destruct l as [|y l]; [done|].
  rewrite link_consecutive_cons. cbn [length]. rewrite (IH (S k)).
  simpl. lia.
Qed.

(** X23.  For the sections returned by [extract_sections], whose orders are
    their positions, the sort of [_create_next_section_relationships]
    changes nothing: the links go from each section to the next one of the
    list, the link of position [i] with the order [i], and there is one link
    less than there are sections. *)
Theorem next_section_links_follow_the_list document toc :
  let out := extract_sections document toc in
  _create_next_section_relationships out = link_consecutive 0 out
  /\ length (_create_next_section_relationships out) = length out - 1
  /\ forall i a b,
       out !! i = Some a -> out !! S i = Some b ->
       _create_next_section_relationships out !! i
         = Some {| currentId := sectionId a; nextId := sectionId b;
                   link_order := i |}.
Proof.
  intros out.
  assert (Heq : _create_next_section_relationships out = link_consecutive 0 out).
  { unfold _create_next_section_relationships.
    rewrite (sorted_by_order_increasing out 0).
    - destruct (Nat.ltb_spec (length out) 2); [|done].
      destruct out as [|x [|y l]]; [done | done | simpl in *; lia].
    - unfold out. by rewrite extract_sections_length, extract_sections_order. }
  rewrite Heq. split; [done|]. split; [apply link_consecutive_length|].
  intros i a b Hi Hj. by rewrite (link_consecutive_lookup out 0 i a b).
Qed.

Lemma next_section_links_follow_the_list_witness :
  _create_next_section_relationships (extract_sections doc_nested None) !! 0
    = Some {| currentId := lit "DOC_SEC_0"; nextId := lit "DOC_SEC_1";
              link_order := 0 |}.
Proof.
  apply (proj2 (proj2 (next_section_links_follow_the_list doc_nested None))
           0 (set_parent None (set_order 0
                (_create_section doc_nested 0 (lit "1. TITOLO") [lit "corpo"]
                   (Some (lit "numbered")) 1 1)))
           section_nested).
  - reflexivity.
  - reflexivity.
Defined.
